(** * Glass recommendation engine: recommender.py

    A shallow embedding of [src/recommender.py] and the properties of its
    age classifier, its recommendation function and the rendering of a
    recommendation.

    Conventions of the embedding.
    - A Python [int] is a [Z].
    - A Python [str] is a [string]; its characters are read as the code
      points U+0000 .. U+00FF, on which [str.strip], [str.lower] and [repr]
      are modelled exactly as CPython defines them.
    - A [dict] is an association list in insertion order (iteration order
      and [keys()] order are observable in the source).
    - A raised exception is the [Raise] branch of [result]. *)

From Stdlib Require Import ZArith NArith Bool List String Ascii Lia.
From Stdlib Require Import DecimalString DecimalPos DecimalZ.
Import ListNotations.

Local Open Scope list_scope.
Local Open Scope string_scope.
Local Open Scope Z_scope.

(* ------------------------------------------------------------------ *)
(** ** Exceptions *)

Inductive exn : Type :=
| ValueError (msg : string)
| KeyError (key : string).

Inductive result (A : Type) : Type :=
| Return (a : A)
| Raise (e : exn).

Arguments Return {A} a.
Arguments Raise {A} e.

Definition bind {A B : Type} (m : result A) (k : A -> result B) : result B :=
  match m with
  | Return a => k a
  | Raise e => Raise e
  end.

Notation "x <- m ;; k" := (bind m (fun x => k))
  (at level 61, m at next level, right associativity).

(* ------------------------------------------------------------------ *)
(** ** Python strings *)

Definition LF : ascii := "010"%char.
Definition TAB : ascii := "009"%char.
Definition CR : ascii := "013"%char.
Definition DQUOTE : ascii := "034"%char.
Definition SQUOTE : ascii := "'"%char.
Definition BACKSLASH : ascii := "\"%char.

(** [str.isspace] on one character: U+0009..U+000D, U+001C..U+0020,
    U+0085 and U+00A0. *)
Definition isspace (c : ascii) : bool :=
  let n := N_of_ascii c in
  (((9 <=? n) && (n <=? 13)) || ((28 <=? n) && (n <=? 32))
   || (n =? 133) || (n =? 160))%N.

(** [str.lower] on one character: A-Z, and U+00C0..U+00DE without the
    multiplication sign U+00D7, move up by 32. *)
Definition lower_char (c : ascii) : ascii :=
  let n := N_of_ascii c in
  if (((65 <=? n) && (n <=? 90))
      || ((192 <=? n) && (n <=? 222) && negb (n =? 215)))%N
  then ascii_of_N (n + 32)
  else c.

Fixpoint lower (s : string) : string :=
  match s with
  | EmptyString => EmptyString
  | String c s' => String (lower_char c) (lower s')
  end.

Fixpoint lstrip (s : string) : string :=
  match s with
  | EmptyString => EmptyString
  | String c s' => if isspace c then lstrip s' else s
  end.

Definition is_empty (s : string) : bool :=
  match s with
  | EmptyString => true
  | String _ _ => false
  end.

Fixpoint rstrip (s : string) : string :=
  match s with
  | EmptyString => EmptyString
  | String c s' =>
      let r := rstrip s' in
      if isspace c && is_empty r then EmptyString else String c r
  end.

(** [s.strip()]: the slice between the first and the last character that
    is not white space. *)
Definition strip (s : string) : string := rstrip (lstrip s).

(** The first character, if any, is not white space. *)
Definition starts_clean (s : string) : bool :=
  match s with
  | EmptyString => true
  | String c _ => negb (isspace c)
  end.

(** [sep.join(xs)] *)
Definition join (sep : string) (xs : list string) : string :=
  String.concat sep xs.

(** [str(n)] for an [int]. *)
Definition str_int (n : Z) : string := NilZero.string_of_int (Z.to_int n).

(** [sub in s] *)
Fixpoint contains (sub s : string) : bool :=
  String.prefix sub s
  || match s with
     | EmptyString => false
     | String _ s' => contains sub s'
     end.

(** [c in s] for one character. *)
Fixpoint has_char (c : ascii) (s : string) : bool :=
  match s with
  | EmptyString => false
  | String d s' => Ascii.eqb c d || has_char c s'
  end.

(** [s.split("\n")] *)
Fixpoint split_lines (s : string) : list string :=
  match s with
  | EmptyString => [EmptyString]
  | String c s' =>
      if Ascii.eqb c LF then EmptyString :: split_lines s'
      else match split_lines s' with
           | [] => [String c EmptyString]
           | l :: ls => String c l :: ls
           end
  end.

(** *** [repr] of a string and of a list of strings *)

Definition hex_digit (n : N) : ascii :=
  match String.get (N.to_nat n) "0123456789abcdef" with
  | Some c => c
  | None => "0"%char
  end.

Definition printable (c : ascii) : bool :=
  let n := N_of_ascii c in
  negb ((n <? 32) || ((127 <=? n) && (n <=? 160)) || (n =? 173))%N.

Definition repr_char (quote c : ascii) : string :=
  if Ascii.eqb c quote || Ascii.eqb c BACKSLASH
  then String BACKSLASH (String c EmptyString)
  else if Ascii.eqb c TAB then "\t"
  else if Ascii.eqb c LF then "\n"
  else if Ascii.eqb c CR then "\r"
  else if printable c then String c EmptyString
  else let n := N_of_ascii c in
       String BACKSLASH
         (String "x" (String (hex_digit (n / 16))
                        (String (hex_digit (n mod 16)) EmptyString))).

Fixpoint repr_body (quote : ascii) (s : string) : string :=
  match s with
  | EmptyString => EmptyString
  | String c s' => repr_char quote c ++ repr_body quote s'
  end.

Definition repr_str (s : string) : string :=
  let quote :=
    if has_char SQUOTE s && negb (has_char DQUOTE s) then DQUOTE else SQUOTE in
  String quote (repr_body quote s ++ String quote EmptyString).

Definition repr_list (xs : list string) : string :=
  "[" ++ join ", " (map repr_str xs) ++ "]".

(* ------------------------------------------------------------------ *)
(** ** Python dictionaries and lists *)

Definition dict (V : Type) : Type := list (string * V).

Fixpoint dict_lookup {V : Type} (d : dict V) (k : string) : option V :=
  match d with
  | [] => None
  | (k', v) :: rest => if String.eqb k k' then Some v else dict_lookup rest k
  end.

(** [k in d] *)
Definition dict_contains {V : Type} (d : dict V) (k : string) : bool :=
  match dict_lookup d k with
  | Some _ => true
  | None => false
  end.

(** [d[k]] *)
Definition dict_getitem {V : Type} (d : dict V) (k : string) : result V :=
  match dict_lookup d k with
  | Some v => Return v
  | None => Raise (KeyError k)
  end.

(** [d.get(k, default)] *)
Definition dict_get {V : Type} (d : dict V) (k : string) (default : V) : V :=
  match dict_lookup d k with
  | Some v => v
  | None => default
  end.

(** [list(d.keys())] *)
Definition dict_keys {V : Type} (d : dict V) : list string := map fst d.

(** [xs.append(x)] *)
Definition list_append {A : Type} (xs : list A) (x : A) : list A :=
  (xs ++ [x])%list.

(** [x in xs] on a list of strings *)
Definition list_contains (xs : list string) (x : string) : bool :=
  existsb (String.eqb x) xs.

(* ------------------------------------------------------------------ *)
(** ** Module-level tables *)

Definition AGE_GROUPS : dict (Z * Z) :=
  [ ("child", (0, 12));
    ("teen", (13, 17));
    ("young_adult", (18, 35));
    ("adult", (36, 59));
    ("senior", (60, 150)) ].

Definition _FACE_SHAPE_FRAMES : dict (list string) :=
  [ ("oval", ["aviator"; "wayfarer"; "round"; "cat-eye"; "geometric"]);
    ("round", ["rectangular"; "square"; "geometric"; "browline"; "wayfarer"]);
    ("square", ["round"; "oval"; "rimless"; "cat-eye"; "aviator"]);
    ("heart", ["aviator"; "round"; "rimless"; "light-colored frames"]);
    ("oblong", ["tall frames"; "decorative temples"; "round"; "square"]);
    ("diamond", ["cat-eye"; "oval"; "rimless browline"]);
    ("triangle", ["top-heavy frames"; "browline"; "cat-eye"; "aviator"]) ].

(** One entry of [_AGE_GROUP_MODIFIERS]: a dict literal with exactly the
    keys "prefer", "avoid" and "fit_notes". Entries that lack a key are
    the subject of [ModifierDict] and [recommend_glasses_over] below. *)
Record Modifiers : Type := {
  prefer : list string;
  avoid : list string;
  fit_notes_of : string
}.

Definition _AGE_GROUP_MODIFIERS : dict Modifiers :=
  [ ("child",
     {| prefer := ["flexible frames"; "small fit"; "rubber nose pads";
                   "polycarbonate lenses"];
        avoid := ["rimless"; "large frames"; "heavy metal frames"];
        fit_notes_of :=
          "Small/petite fit; lightweight and durable materials are essential." |});
    ("teen",
     {| prefer := ["trendy styles"; "sporty frames"; "medium fit"];
        avoid := ["very large oversized frames"];
        fit_notes_of := "Medium fit; style-conscious options work well." |});
    ("young_adult",
     {| prefer := ["fashion-forward"; "bold colors"; "geometric"; "large fit"];
        avoid := [];
        fit_notes_of := "Standard adult fit; wide variety of styles suitable." |});
    ("adult",
     {| prefer := ["classic styles"; "professional frames";
                   "progressive-lens ready"];
        avoid := [];
        fit_notes_of :=
          "Standard to wide fit; consider progressive-lens compatibility." |});
    ("senior",
     {| prefer := ["progressive-lens ready"; "lightweight frames"; "wide fit";
                   "high nose bridge"; "spring hinges"];
        avoid := ["very small frames"; "heavy frames"];
        fit_notes_of :=
          "Wide fit with spring hinges; frames should accommodate progressive or "
          ++ "bifocal lenses. Lightweight materials (titanium, memory metal) reduce fatigue." |}) ].

Definition _AGE_LENS_SUGGESTIONS : dict (list string) :=
  [ ("child", ["polycarbonate lenses"; "anti-scratch coating"; "UV400 protection"]);
    ("teen", ["polycarbonate lenses"; "anti-reflective coating"; "UV400 protection"]);
    ("young_adult", ["single-vision"; "anti-reflective coating"; "blue-light filter"]);
    ("adult", ["progressive lenses"; "anti-reflective coating"; "blue-light filter";
               "UV400 protection"]);
    ("senior", ["progressive or bifocal lenses"; "anti-reflective coating";
                "photochromic option"; "UV400 protection";
                "high-index lenses to reduce weight"]) ].

(* ------------------------------------------------------------------ *)
(** ** The result object *)

Record GlassRecommendation : Type := {
  face_shape : string;
  age : Z;
  age_group : string;
  recommended_frames : list string;
  preferred_features : list string;
  frames_to_avoid : list string;
  fit_notes : string;
  lens_suggestions : list string
}.

Definition summary_lines (self : GlassRecommendation) : list string :=
  let lines :=
    [ "Face shape  : " ++ face_shape self;
      "Age         : " ++ str_int (age self) ++ " (" ++ age_group self ++ ")";
      "Frames      : " ++ join ", " (recommended_frames self);
      "Features    : " ++ join ", " (preferred_features self) ] in
  let lines :=
    match frames_to_avoid self with
    | [] => lines
    | _ :: _ =>
        list_append lines ("Avoid       : " ++ join ", " (frames_to_avoid self))
    end in
  let lines :=
    match lens_suggestions self with
    | [] => lines
    | _ :: _ =>
        list_append lines ("Lenses      : " ++ join ", " (lens_suggestions self))
    end in
  list_append lines ("Fit notes   : " ++ fit_notes self).

Definition summary (self : GlassRecommendation) : string :=
  join (String LF EmptyString) (summary_lines self).

(* ------------------------------------------------------------------ *)
(** ** The engine, over the module globals it reads *)

Section Engine.

Variable age_groups : dict (Z * Z).
Variable face_shape_frames : dict (list string).
Variable age_group_modifiers : dict Modifiers.
Variable age_lens_suggestions : dict (list string).

(** The [for group, (lo, hi) in AGE_GROUPS.items()] loop: the first
    range that covers [age] returns its label. *)
Fixpoint first_covering (items : dict (Z * Z)) (age : Z) : option string :=
  match items with
  | [] => None
  | (group, (lo, hi)) :: rest =>
      if (lo <=? age) && (age <=? hi) then Some group
      else first_covering rest age
  end.

Definition classify_age_group_in (age : Z) : result string :=
  if age <? 0
  then Raise (ValueError ("Age must be non-negative, got " ++ str_int age))
  else match first_covering age_groups age with
       | Some group => Return group
       | None => Raise (ValueError ("Could not classify age " ++ str_int age))
       end.

Definition recommend_glasses_in (face_shape : string) (age : Z)
  : result GlassRecommendation :=
  let face_shape := lower (strip face_shape) in
  if negb (dict_contains face_shape_frames face_shape)
  then Raise (ValueError
                ("Unknown face shape '" ++ face_shape ++ "'. "
                 ++ "Supported shapes: "
                 ++ repr_list (dict_keys face_shape_frames)))
  else
    age_group <- classify_age_group_in age ;;
    base_frames <- dict_getitem face_shape_frames face_shape ;;
    modifiers <- dict_getitem age_group_modifiers age_group ;;
    let frames_to_avoid := avoid modifiers in
    let recommended :=
      filter (fun f => negb (list_contains frames_to_avoid f)) base_frames in
    Return {| face_shape := face_shape;
              age := age;
              age_group := age_group;
              recommended_frames := recommended;
              preferred_features := prefer modifiers;
              frames_to_avoid := frames_to_avoid;
              fit_notes := fit_notes_of modifiers;
              lens_suggestions := dict_get age_lens_suggestions age_group [] |}.

End Engine.

(** The functions of the module, reading the module's own tables. *)
Definition classify_age_group (age : Z) : result string :=
  classify_age_group_in AGE_GROUPS age.

Definition recommend_glasses (face_shape : string) (age : Z)
  : result GlassRecommendation :=
  recommend_glasses_in AGE_GROUPS _FACE_SHAPE_FRAMES _AGE_GROUP_MODIFIERS
    _AGE_LENS_SUGGESTIONS face_shape age.

(* ------------------------------------------------------------------ *)
(** ** Vocabulary of the specification *)

(** The seven face-shape labels and the five age-group labels. *)
Definition FaceShape : list string :=
  ["oval"; "round"; "square"; "heart"; "oblong"; "diamond"; "triangle"].

Definition AgeGroup : list string :=
  ["child"; "teen"; "young_adult"; "adult"; "senior"].

(** The canonical form of a face-shape input, as the engine computes it,
    and as the specification words it (lowercase, then trim). *)
Definition normalize (s : string) : string := lower (strip s).

Definition trim_lowercase (s : string) : string := strip (lower s).

(** The test of the classification loop on one table entry, and the
    labels of all the entries whose range covers [age]. *)
Definition covers (age : Z) (item : string * (Z * Z)) : bool :=
  let '(_, (lo, hi)) := item in (lo <=? age) && (age <=? hi).

Definition covering_groups (age : Z) : list string :=
  map fst (filter (covers age) AGE_GROUPS).

(** The two error kinds: both are [ValueError]s, told apart by message. *)
Definition InvalidAge (age : Z) (e : exn) : Prop :=
  e = ValueError ("Age must be non-negative, got " ++ str_int age)
  \/ e = ValueError ("Could not classify age " ++ str_int age).

Definition UnknownFaceShape (rejected : string) (supported : list string)
  (e : exn) : Prop :=
  e = ValueError ("Unknown face shape '" ++ rejected ++ "'. Supported shapes: "
                  ++ repr_list supported).

(** "The base list with every entry of the avoid list removed": the
    avoided entries are struck out of the base list one after the other. *)
Definition strike (a : string) (xs : list string) : list string :=
  List.remove string_dec a xs.

Definition without_avoided (base avoided : list string) : list string :=
  fold_left (fun acc a => strike a acc) avoided base.

(** [subseq xs ys]: [xs] is [ys] with some entries dropped, the others
    in their original relative order. *)
Inductive subseq {A : Type} : list A -> list A -> Prop :=
| subseq_nil : subseq [] []
| subseq_keep x xs ys : subseq xs ys -> subseq (x :: xs) (x :: ys)
| subseq_drop y xs ys : subseq xs ys -> subseq xs (y :: ys).

(** A line of a rendered text that starts with [label]. *)
Definition has_line (label text : string) : bool :=
  existsb (String.prefix label) (split_lines text).

Definition AVOID_LABEL : string := "Avoid       : ".
Definition LENSES_LABEL : string := "Lenses      : ".

(** No field of the recommendation holds a line break. *)
Definition one_line (s : string) : bool := negb (has_char LF s).

Definition one_line_fields (r : GlassRecommendation) : bool :=
  one_line (face_shape r) && one_line (age_group r) && one_line (fit_notes r)
  && forallb one_line (recommended_frames r)
  && forallb one_line (preferred_features r)
  && forallb one_line (frames_to_avoid r)
  && forallb one_line (lens_suggestions r).

(* ------------------------------------------------------------------ *)
(** ** Further vocabulary *)

(** [s == "" or s.isspace()]: nothing but white space. *)
Fixpoint all_space (s : string) : bool :=
  match s with
  | EmptyString => true
  | String c s' => isspace c && all_space s'
  end.

(** No entry of the range table covers [age]. *)
Definition misses (age : Z) (items : dict (Z * Z)) : bool :=
  forallb (fun item => negb (covers age item)) items.

(** The position of the first occurrence of [x] in [xs], [None] where
    [xs.index(x)] raises. *)
Fixpoint list_index (x : string) (xs : list string) : option nat :=
  match xs with
  | [] => None
  | y :: ys =>
      if String.eqb x y then Some O
      else match list_index x ys with
           | Some n => Some (S n)
           | None => None
           end
  end.

(** [dataclasses.replace(r, age=a)] *)
Definition with_age (r : GlassRecommendation) (a : Z) : GlassRecommendation :=
  {| face_shape := face_shape r;
     age := a;
     age_group := age_group r;
     recommended_frames := recommended_frames r;
     preferred_features := preferred_features r;
     frames_to_avoid := frames_to_avoid r;
     fit_notes := fit_notes r;
     lens_suggestions := lens_suggestions r |}.

(* ------------------------------------------------------------------ *)
(** ** The engine over modifier entries that may lack keys *)

(** An entry of a modifier table read as the [dict] it is: each of the
    keys "prefer", "avoid" and "fit_notes" is present with its value or
    absent. *)
Record ModifierDict : Type := {
  item_prefer : option (list string);
  item_avoid : option (list string);
  item_fit_notes : option string
}.

(** [modifiers[key]] on such an entry. *)
Definition subscript {V : Type} (item : option V) (key : string) : result V :=
  match item with
  | Some v => Return v
  | None => Raise (KeyError key)
  end.

(** The entry that holds all three keys. *)
Definition as_dict (m : Modifiers) : ModifierDict :=
  {| item_prefer := Some (prefer m);
     item_avoid := Some (avoid m);
     item_fit_notes := Some (fit_notes_of m) |}.

Definition as_dicts (modifiers : dict Modifiers) : dict ModifierDict :=
  map (fun kv => (fst kv, as_dict (snd kv))) modifiers.

(** [recommend_glasses] with every subscript of the modifier entry written
    out, in the order in which the source evaluates them: "avoid" before
    the filter, then "prefer" and "fit_notes" among the arguments of the
    constructor. *)
Definition recommend_glasses_over
  (age_groups : dict (Z * Z)) (face_shape_frames : dict (list string))
  (age_group_modifiers : dict ModifierDict)
  (age_lens_suggestions : dict (list string))
  (face_shape : string) (age : Z) : result GlassRecommendation :=
  let face_shape := lower (strip face_shape) in
  if negb (dict_contains face_shape_frames face_shape)
  then Raise (ValueError
                ("Unknown face shape '" ++ face_shape ++ "'. "
                 ++ "Supported shapes: "
                 ++ repr_list (dict_keys face_shape_frames)))
  else
    age_group <- classify_age_group_in age_groups age ;;
    base_frames <- dict_getitem face_shape_frames face_shape ;;
    modifiers <- dict_getitem age_group_modifiers age_group ;;
    frames_to_avoid <- subscript (item_avoid modifiers) "avoid" ;;
    let recommended :=
      filter (fun f => negb (list_contains frames_to_avoid f)) base_frames in
    preferred <- subscript (item_prefer modifiers) "prefer" ;;
    notes <- subscript (item_fit_notes modifiers) "fit_notes" ;;
    Return {| face_shape := face_shape;
              age := age;
              age_group := age_group;
              recommended_frames := recommended;
              preferred_features := preferred;
              frames_to_avoid := frames_to_avoid;
              fit_notes := notes;
              lens_suggestions := dict_get age_lens_suggestions age_group [] |}.

(* ------------------------------------------------------------------ *)
(** ** The command line: app.py *)

(** The namespace that [parse_args] returns: [args.face_shape], a string,
    and [args.age], converted by [type=int]. *)
Record Namespace : Type := {
  ns_face_shape : string;
  ns_age : Z
}.

(** What the process has written so far. *)
Record Streams : Type := {
  stdout : string;
  stderr : string
}.

(** How a call of [main] ends: it returns, [sys.exit] stops it, or an
    exception leaves it. *)
Inductive ending : Type :=
| Returned
| SystemExit (status : Z)
| Uncaught (e : exn).

(** [print(text)] and [print(text, file=sys.stderr)] *)
Definition print_stdout (text : string) (w : Streams) : Streams :=
  {| stdout := stdout w ++ text ++ String LF ""; stderr := stderr w |}.

Definition print_stderr (text : string) (w : Streams) : Streams :=
  {| stdout := stdout w; stderr := stderr w ++ text ++ String LF "" |}.

Section CommandLine.

(** [parse_args] hands the argument vector to [argparse], which either
    returns the namespace or writes its own message and exits with its own
    status; it is a parameter here. *)
Variable Argv : Type.
Variable parse_args : Argv -> Streams -> (Namespace + Z) * Streams.

Definition main (argv : Argv) (w : Streams) : ending * Streams :=
  match parse_args argv w with
  | (inr status, w) => (SystemExit status, w)
  | (inl args, w) =>
      match recommend_glasses (ns_face_shape args) (ns_age args) with
      | Raise (ValueError msg) => (SystemExit 1, print_stderr ("Error: " ++ msg) w)
      | Raise e => (Uncaught e, w)
      | Return recommendation => (Returned, print_stdout (summary recommendation) w)
      end
  end.

End CommandLine.

(* ------------------------------------------------------------------ *)
(** ** Sanity checks against the test-suite *)

Example classify_boundaries :
  map classify_age_group [0; 12; 13; 17; 18; 35; 36; 59; 60; 90; 150]
  = map Return ["child"; "child"; "teen"; "teen"; "young_adult"; "young_adult";
                "adult"; "adult"; "senior"; "senior"; "senior"].
Proof. reflexivity. Qed.

Example unknown_hexagon :
  recommend_glasses "hexagon" 30
  = Raise (ValueError
      ("Unknown face shape 'hexagon'. Supported shapes: "
       ++ "['oval', 'round', 'square', 'heart', 'oblong', 'diamond', 'triangle']")).
Proof. reflexivity. Qed.

Example negative_age :
  recommend_glasses "oval" (-5)
  = Raise (ValueError "Age must be non-negative, got -5").
Proof. reflexivity. Qed.

Example summary_square_10 :
  match recommend_glasses "square" 10 with
  | Return r =>
      split_lines (summary r)
      = [ "Face shape  : square";
          "Age         : 10 (child)";
          "Frames      : round, oval, cat-eye, aviator";
          "Features    : flexible frames, small fit, rubber nose pads, polycarbonate lenses";
          "Avoid       : rimless, large frames, heavy metal frames";
          "Lenses      : polycarbonate lenses, anti-scratch coating, UV400 protection";
          "Fit notes   : Small/petite fit; lightweight and durable materials are essential." ]
  | Raise _ => False
  end.
Proof. reflexivity. Qed.

(* ------------------------------------------------------------------ *)
(** ** Age classification *)

Ltac split_leb :=
  repeat match goal with
    | |- context [Z.leb ?a ?b] => destruct (Z.leb_spec a b)
    | |- context [Z.ltb ?a ?b] => destruct (Z.ltb_spec a b)
    end.

(** The classifier as a decision list on the age. *)
Lemma classify_age_group_cases (age : Z) :
  classify_age_group age =
    if age <? 0
    then Raise (ValueError ("Age must be non-negative, got " ++ str_int age))
    else if age <=? 12 then Return "child"
    else if age <=? 17 then Return "teen"
    else if age <=? 35 then Return "young_adult"
    else if age <=? 59 then Return "adult"
    else if age <=? 150 then Return "senior"
    else Raise (ValueError ("Could not classify age " ++ str_int age)).
Proof.
  unfold classify_age_group, classify_age_group_in, AGE_GROUPS, first_covering.
  split_leb; simpl; try reflexivity; lia.
Qed.

Lemma covering_groups_cases (age : Z) :
  covering_groups age =
    if age <? 0 then []
    else if age <=? 12 then ["child"]
    else if age <=? 17 then ["teen"]
    else if age <=? 35 then ["young_adult"]
    else if age <=? 59 then ["adult"]
    else if age <=? 150 then ["senior"]
    else [].
Proof.
  unfold covering_groups, AGE_GROUPS, covers, filter.
  split_leb; simpl; try reflexivity; lia.
Qed.

(** C1. For every integer age in [0,150], [classify_age_group] returns one
    of the five labels, the one whose inclusive range holds the age:
    child 0-12, teen 13-17, young_adult 18-35, adult 36-59, senior 60-150;
    and exactly one range of [AGE_GROUPS] covers the age (no gap, no
    overlap). *)
Theorem C1_classify_age_group_partition (age : Z) :
  0 <= age <= 150 ->
  exists group,
    classify_age_group age = Return group
    /\ In group AgeGroup
    /\ covering_groups age = [group]
    /\ (group = "child" <-> 0 <= age <= 12)
    /\ (group = "teen" <-> 13 <= age <= 17)
    /\ (group = "young_adult" <-> 18 <= age <= 35)
    /\ (group = "adult" <-> 36 <= age <= 59)
    /\ (group = "senior" <-> 60 <= age <= 150).
Proof.
  intros Hage.
  rewrite classify_age_group_cases, covering_groups_cases.
  split_leb; try lia;
    eexists; (split; [reflexivity|]); (split; [simpl; tauto|]);
    (split; [reflexivity|]);
    repeat split; intros; try lia; try discriminate; reflexivity.
Qed.

Lemma C1_witness :
  0 <= 13 <= 150
  /\ exists group,
       classify_age_group 13 = Return group
       /\ In group AgeGroup
       /\ covering_groups 13 = [group]
       /\ (group = "child" <-> 0 <= 13 <= 12)
       /\ (group = "teen" <-> 13 <= 13 <= 17)
       /\ (group = "young_adult" <-> 18 <= 13 <= 35)
       /\ (group = "adult" <-> 36 <= 13 <= 59)
       /\ (group = "senior" <-> 60 <= 13 <= 150).
Proof.
  split; [lia | apply (C1_classify_age_group_partition 13); lia].
Defined.

(* ------------------------------------------------------------------ *)
(** ** Strings: concatenation and containment *)

Lemma append_nil_r (s : string) : s ++ "" = s.
Proof. induction s; simpl; congruence. Qed.

Lemma append_assoc (s t u : string) : (s ++ t) ++ u = s ++ t ++ u.
Proof. induction s; simpl; congruence. Qed.

Lemma prefix_append (s t : string) : String.prefix s (s ++ t) = true.
Proof.
  induction s as [|c s IH]; simpl.
  - destruct t; reflexivity.
  - destruct (ascii_dec c c) as [_|Hne]; [exact IH | now elim Hne].
Qed.

Lemma prefix_split (s t : string) :
  String.prefix s t = true -> exists u, t = s ++ u.
Proof.
  revert t; induction s as [|c s IH]; intros t H.
  - exists t; reflexivity.
  - destruct t as [|d t]; simpl in H; [discriminate|].
    destruct (ascii_dec c d) as [->|]; [|discriminate].
    destruct (IH t H) as [u ->]. exists u; reflexivity.
Qed.

Lemma contains_here (sub s : string) :
  String.prefix sub s = true -> contains sub s = true.
Proof. destruct s; simpl; intros ->; reflexivity. Qed.

Lemma contains_later (sub : string) (c : ascii) (s : string) :
  contains sub s = true -> contains sub (String c s) = true.
Proof. intros H. cbn [contains]. rewrite H. apply orb_true_r. Qed.

(** [sub in (pre + sub + post)] *)
Lemma contains_infix (pre sub post : string) :
  contains sub (pre ++ sub ++ post) = true.
Proof.
  induction pre as [|c pre IH].
  - cbn [append]. apply contains_here, prefix_append.
  - cbn [append]. apply contains_later, IH.
Qed.

Lemma contains_suffix (pre sub : string) : contains sub (pre ++ sub) = true.
Proof.
  rewrite <- (append_nil_r sub) at 2. apply contains_infix.
Qed.

(** [contains] decides the existence of an occurrence. *)
Lemma contains_spec (sub s : string) :
  contains sub s = true <-> exists pre post, s = pre ++ sub ++ post.
Proof.
  split.
  - induction s as [|c s IH]; cbn [contains]; intros H.
    + rewrite orb_false_r in H. apply prefix_split in H as [u ->].
      exists "", u; reflexivity.
    + apply orb_true_iff in H as [H|H].
      * apply prefix_split in H as [u ->]. exists "", u; reflexivity.
      * destruct (IH H) as (pre & post & ->).
        exists (String c pre), post; reflexivity.
  - intros (pre & post & ->). apply contains_infix.
Qed.

(* ------------------------------------------------------------------ *)
(** ** Errors of the classifier *)

(** C4. [classify_age_group] raises exactly for the ages outside [0,150]:
    below 0 with the message that names the age, above 150 -- the only
    ages that no range of the table covers -- with the message of the
    fall-through branch; inside [0,150] it returns a label. *)
Theorem C4_classify_age_group_errors (age : Z) :
  (age < 0 ->
     classify_age_group age
     = Raise (ValueError ("Age must be non-negative, got " ++ str_int age)))
  /\ (0 <= age -> (covering_groups age = [] <-> 150 < age))
  /\ (150 < age ->
        classify_age_group age
        = Raise (ValueError ("Could not classify age " ++ str_int age)))
  /\ (0 <= age <= 150 -> exists group, classify_age_group age = Return group)
  /\ (forall e, classify_age_group age = Raise e ->
        ~ 0 <= age <= 150
        /\ InvalidAge age e
        /\ exists msg, e = ValueError msg /\ contains (str_int age) msg = true).
Proof.
  rewrite classify_age_group_cases, covering_groups_cases.
  repeat apply conj.
  - intros Hneg. split_leb; try lia; reflexivity.
  - intros Hpos. split_leb; split; intros; try lia; try discriminate; reflexivity.
  - intros Hbig. split_leb; try lia; reflexivity.
  - intros Hin. split_leb; try lia; eexists; reflexivity.
  - intros e. split_leb; intros He; try discriminate; try lia;
      injection He as <-; (split; [lia|]).
    + split; [left; reflexivity|].
      eexists; split;
        [reflexivity | exact (contains_suffix "Age must be non-negative, got " _)].
    + split; [right; reflexivity|].
      eexists; split;
        [reflexivity | exact (contains_suffix "Could not classify age " _)].
Qed.

Lemma C4_witness :
  classify_age_group (-1) = Raise (ValueError "Age must be non-negative, got -1")
  /\ classify_age_group 151 = Raise (ValueError "Could not classify age 151")
  /\ (exists group, classify_age_group 150 = Return group)
  /\ (covering_groups 200 = [] <-> 150 < 200)
  /\ ~ 0 <= 151 <= 150.
Proof.
  pose proof (C4_classify_age_group_errors (-1)) as (Hneg & _).
  pose proof (C4_classify_age_group_errors 151) as (_ & _ & Hbig & _ & Herr).
  pose proof (C4_classify_age_group_errors 150) as (_ & _ & _ & Hin & _).
  pose proof (C4_classify_age_group_errors 200) as (_ & Hcov & _).
  split; [apply Hneg; lia|].
  split; [apply Hbig; lia|].
  split; [apply Hin; lia|].
  split; [apply Hcov; lia|].
  exact (proj1 (Herr _ (Hbig ltac:(lia)))).
Defined.

(* ------------------------------------------------------------------ *)
(** ** Normalisation of the face-shape input *)

Ltac each_char c := destruct c as [[] [] [] [] [] [] [] []]; vm_compute; reflexivity.

Lemma isspace_lower_char (c : ascii) : isspace (lower_char c) = isspace c.
Proof. each_char c. Qed.

Lemma lower_char_idem (c : ascii) : lower_char (lower_char c) = lower_char c.
Proof. each_char c. Qed.

Lemma lower_idem (s : string) : lower (lower s) = lower s.
Proof.
  induction s as [|c s IH]; simpl; [reflexivity|].
  now rewrite lower_char_idem, IH.
Qed.

Lemma is_empty_lower (s : string) : is_empty (lower s) = is_empty s.
Proof. destruct s; reflexivity. Qed.

Lemma lstrip_lower (s : string) : lstrip (lower s) = lower (lstrip s).
Proof.
  induction s as [|c s IH]; simpl; [reflexivity|].
  rewrite isspace_lower_char. destruct (isspace c); [exact IH | reflexivity].
Qed.

Lemma rstrip_lower (s : string) : rstrip (lower s) = lower (rstrip s).
Proof.
  induction s as [|c s IH]; simpl; [reflexivity|].
  rewrite isspace_lower_char, IH, is_empty_lower.
  destruct (isspace c && is_empty (rstrip s)); reflexivity.
Qed.

(** Trimming and lowercasing commute: the order in which the source and
    the specification apply them is immaterial. *)
Lemma strip_lower (s : string) : strip (lower s) = lower (strip s).
Proof. unfold strip. now rewrite lstrip_lower, rstrip_lower. Qed.

Lemma lstrip_starts_clean (s : string) : starts_clean (lstrip s) = true.
Proof.
  induction s as [|c s IH]; simpl; [reflexivity|].
  destruct (isspace c) eqn:Hc; [exact IH | simpl; now rewrite Hc].
Qed.

Lemma lstrip_clean (s : string) : starts_clean s = true -> lstrip s = s.
Proof.
  destruct s as [|c s]; simpl; [reflexivity|].
  destruct (isspace c); [discriminate | reflexivity].
Qed.

Lemma rstrip_starts_clean (s : string) :
  starts_clean s = true -> starts_clean (rstrip s) = true.
Proof.
  destruct s as [|c s]; simpl; [reflexivity|].
  destruct (isspace c) eqn:Hc; [discriminate|].
  simpl. now rewrite Hc.
Qed.

Lemma rstrip_idem (s : string) : rstrip (rstrip s) = rstrip s.
Proof.
  induction s as [|c s IH]; simpl; [reflexivity|].
  destruct (isspace c && is_empty (rstrip s)) eqn:E; [reflexivity|].
  simpl. now rewrite IH, E.
Qed.

Lemma strip_idem (s : string) : strip (strip s) = strip s.
Proof.
  unfold strip.
  rewrite (lstrip_clean (rstrip (lstrip s))).
  - apply rstrip_idem.
  - apply rstrip_starts_clean, lstrip_starts_clean.
Qed.

Lemma trim_lowercase_normalize (s : string) : trim_lowercase s = normalize s.
Proof. apply strip_lower. Qed.

Lemma normalize_idem (s : string) : normalize (normalize s) = normalize s.
Proof.
  unfold normalize. now rewrite <- strip_lower, lower_idem, strip_lower, strip_idem.
Qed.

(** The engine sees its first argument only through [normalize]. *)
Lemma recommend_glasses_normalize (s : string) (a : Z) :
  recommend_glasses (normalize s) a = recommend_glasses s a.
Proof.
  unfold recommend_glasses, recommend_glasses_in.
  fold (normalize s). fold (normalize (normalize s)).
  now rewrite normalize_idem.
Qed.

(** C6. Face-shape matching is insensitive to case and to surrounding
    white space: a face-shape string and its trimmed, lowercased form give
    the same outcome at every age (the same recommendation, field by
    field, when the call succeeds); [" Round "] and ["round"] at age 25
    give the same recommendation. *)
Theorem C6_case_and_whitespace_insensitive :
  (forall (s : string) (a : Z),
     recommend_glasses s a = recommend_glasses (trim_lowercase s) a)
  /\ (forall (s : string) (a : Z) (r : GlassRecommendation),
        recommend_glasses s a = Return r <->
        recommend_glasses (trim_lowercase s) a = Return r)
  /\ (exists r,
        recommend_glasses " Round " 25 = Return r
        /\ recommend_glasses "round" 25 = Return r
        /\ recommend_glasses "ROUND" 25 = Return r
        /\ recommend_glasses (String TAB "rOuNd" ++ String LF "") 25 = Return r
        /\ face_shape r = "round").
Proof.
  assert (H : forall s a,
             recommend_glasses s a = recommend_glasses (trim_lowercase s) a).
  { intros s a. rewrite trim_lowercase_normalize.
    symmetry. apply recommend_glasses_normalize. }
  split; [exact H|]. split.
  - intros s a r. rewrite <- H. reflexivity.
  - eexists. repeat split; reflexivity.
Qed.

(* ------------------------------------------------------------------ *)
(** ** Outcomes of the engine, over arbitrary tables *)

Section EngineOutcomes.

Variable age_groups : dict (Z * Z).
Variable face_shape_frames : dict (list string).
Variable age_group_modifiers : dict Modifiers.
Variable age_lens_suggestions : dict (list string).

(** An unknown face shape is rejected before the age is looked at. *)
Lemma recommend_glasses_in_unknown (s : string) (a : Z) :
  dict_lookup face_shape_frames (normalize s) = None ->
  recommend_glasses_in age_groups face_shape_frames age_group_modifiers
    age_lens_suggestions s a
  = Raise (ValueError
             ("Unknown face shape '" ++ normalize s ++ "'. Supported shapes: "
              ++ repr_list (dict_keys face_shape_frames))).
Proof.
  intros H. unfold recommend_glasses_in, dict_contains.
  fold (normalize s). rewrite H. reflexivity.
Qed.

(** A known face shape hands the age to the classifier, whose error
    propagates unchanged. *)
Lemma recommend_glasses_in_bad_age (s : string) (a : Z) base e :
  dict_lookup face_shape_frames (normalize s) = Some base ->
  classify_age_group_in age_groups a = Raise e ->
  recommend_glasses_in age_groups face_shape_frames age_group_modifiers
    age_lens_suggestions s a = Raise e.
Proof.
  intros Hs Ha. unfold recommend_glasses_in, dict_contains.
  fold (normalize s). rewrite Hs, Ha. reflexivity.
Qed.

(** With all three look-ups successful the call returns this record. *)
Lemma recommend_glasses_in_ok (s : string) (a : Z) base g m :
  dict_lookup face_shape_frames (normalize s) = Some base ->
  classify_age_group_in age_groups a = Return g ->
  dict_lookup age_group_modifiers g = Some m ->
  recommend_glasses_in age_groups face_shape_frames age_group_modifiers
    age_lens_suggestions s a
  = Return {| face_shape := normalize s;
              age := a;
              age_group := g;
              recommended_frames :=
                filter (fun f => negb (list_contains (avoid m) f)) base;
              preferred_features := prefer m;
              frames_to_avoid := avoid m;
              fit_notes := fit_notes_of m;
              lens_suggestions := dict_get age_lens_suggestions g [] |}.
Proof.
  intros Hs Ha Hm. unfold recommend_glasses_in, dict_contains, dict_getitem.
  fold (normalize s). rewrite Hs, Ha. cbn [negb bind]. rewrite Hm.
  reflexivity.
Qed.

(** Conversely a returned record comes from three successful look-ups. *)
Lemma recommend_glasses_in_inv (s : string) (a : Z) (r : GlassRecommendation) :
  recommend_glasses_in age_groups face_shape_frames age_group_modifiers
    age_lens_suggestions s a = Return r ->
  exists base g m,
    dict_lookup face_shape_frames (normalize s) = Some base
    /\ classify_age_group_in age_groups a = Return g
    /\ dict_lookup age_group_modifiers g = Some m.
Proof.
  unfold recommend_glasses_in, dict_contains, dict_getitem.
  fold (normalize s).
  destruct (dict_lookup face_shape_frames (normalize s)) as [base|] eqn:Hs;
    simpl; [|discriminate].
  destruct (classify_age_group_in age_groups a) as [g|e] eqn:Ha;
    simpl; [|discriminate].
  destruct (dict_lookup age_group_modifiers g) as [m|] eqn:Hm;
    simpl; [|discriminate].
  intros _. now exists base, g, m.
Qed.

End EngineOutcomes.

(* ------------------------------------------------------------------ *)
(** ** The module's tables are complete *)

Lemma FaceShape_keys : dict_keys _FACE_SHAPE_FRAMES = FaceShape.
Proof. reflexivity. Qed.

Lemma AgeGroup_keys :
  dict_keys AGE_GROUPS = AgeGroup
  /\ dict_keys _AGE_GROUP_MODIFIERS = AgeGroup
  /\ dict_keys _AGE_LENS_SUGGESTIONS = AgeGroup.
Proof. repeat split. Qed.

Lemma dict_lookup_keys {V : Type} (d : dict V) (k : string) :
  In k (dict_keys d) <-> exists v, dict_lookup d k = Some v.
Proof.
  induction d as [|[k' v] d IH]; simpl.
  - split; [tauto | intros [v H]; discriminate].
  - destruct (String.eqb_spec k k') as [->|Hne].
    + split; [eauto | auto].
    + rewrite <- IH. split; [intros [H|H]; [congruence | exact H] | auto].
Qed.

Lemma dict_lookup_not_keys {V : Type} (d : dict V) (k : string) :
  ~ In k (dict_keys d) <-> dict_lookup d k = None.
Proof.
  rewrite dict_lookup_keys. destruct (dict_lookup d k) as [v|].
  - split; [intros H; elim H; eauto | discriminate].
  - split; [reflexivity | intros _ [v H]; discriminate].
Qed.

Lemma FaceShape_normalized (s : string) : In s FaceShape -> normalize s = s.
Proof.
  simpl. intros H.
  repeat (destruct H as [<-|H]; [reflexivity|]). contradiction.
Qed.

Lemma classify_age_group_in_range (a : Z) :
  0 <= a <= 150 ->
  exists g, classify_age_group a = Return g /\ In g AgeGroup.
Proof.
  intros H. rewrite classify_age_group_cases.
  split_leb; try lia; eexists; (split; [reflexivity | simpl; tauto]).
Qed.

(* ------------------------------------------------------------------ *)
(** ** Rejection of unknown face shapes *)

Lemma recommend_glasses_unknown (s : string) (a : Z) :
  ~ In (normalize s) FaceShape ->
  recommend_glasses s a
  = Raise (ValueError
             ("Unknown face shape '" ++ normalize s ++ "'. Supported shapes: "
              ++ repr_list FaceShape)).
Proof.
  intros H. rewrite <- FaceShape_keys in H |- *.
  apply recommend_glasses_in_unknown, dict_lookup_not_keys, H.
Qed.

(** The two error kinds never share a message. *)
Lemma UnknownFaceShape_not_InvalidAge rejected supported (a : Z) (e : exn) :
  UnknownFaceShape rejected supported e -> ~ InvalidAge a e.
Proof.
  unfold UnknownFaceShape, InvalidAge. intros -> [H|H]; discriminate H.
Qed.

(** C5. When the normalised input (trimmed and lowercased) is none of the
    seven labels, [recommend_glasses] raises, at any age, the error
    "Unknown face shape" whose message quotes the normalised value and
    lists the supported shapes; so it does for "hexagon" at age 30. *)
Theorem C5_unknown_face_shape_rejected :
  (forall (s : string) (a : Z),
     ~ In (normalize s) FaceShape ->
     exists msg,
       recommend_glasses s a = Raise (ValueError msg)
       /\ UnknownFaceShape (normalize s) FaceShape (ValueError msg)
       /\ normalize s = trim_lowercase s
       /\ contains ("'" ++ normalize s ++ "'") msg = true
       /\ contains
            "['oval', 'round', 'square', 'heart', 'oblong', 'diamond', 'triangle']"
            msg = true)
  /\ recommend_glasses "hexagon" 30
     = Raise (ValueError
         ("Unknown face shape 'hexagon'. Supported shapes: "
          ++ "['oval', 'round', 'square', 'heart', 'oblong', 'diamond', 'triangle']")).
Proof.
  split; [|reflexivity].
  intros s a H. eexists. split; [apply recommend_glasses_unknown, H|].
  split; [reflexivity|]. split; [symmetry; apply trim_lowercase_normalize|].
  split.
  - apply contains_spec.
    exists "Unknown face shape ", (". Supported shapes: " ++ repr_list FaceShape).
    cbn [append]. now rewrite !append_assoc.
  - apply contains_spec.
    exists ("Unknown face shape '" ++ normalize s ++ "'. Supported shapes: "), "".
    now rewrite !append_assoc.
Qed.

Lemma C5_witness :
  ~ In (normalize " Pentagon ") FaceShape
  /\ exists msg,
       recommend_glasses " Pentagon " 40 = Raise (ValueError msg)
       /\ UnknownFaceShape "pentagon" FaceShape (ValueError msg).
Proof.
  assert (H : ~ In (normalize " Pentagon ") FaceShape).
  { vm_compute. intros H.
    repeat (destruct H as [H|H]; [discriminate H|]). exact H. }
  split; [exact H|].
  destruct (proj1 C5_unknown_face_shape_rejected " Pentagon " 40 H)
    as (msg & Hcall & Hkind & _).
  exists msg. split; [exact Hcall | exact Hkind].
Defined.

(** C10. The face shape is validated before the age is classified: when
    the normalised face shape is none of the seven labels the call raises
    the unknown-face-shape error whatever the age, never the invalid-age
    error; an unknown shape with age -5 fails on the shape, although -5
    alone makes the classifier fail. *)
Theorem C10_face_shape_checked_before_age :
  (forall (s : string) (a : Z),
     ~ In (normalize s) FaceShape ->
     exists e,
       recommend_glasses s a = Raise e
       /\ UnknownFaceShape (normalize s) FaceShape e
       /\ ~ InvalidAge a e)
  /\ (exists e e',
        recommend_glasses "hexagon" (-5) = Raise e
        /\ UnknownFaceShape "hexagon" FaceShape e
        /\ ~ InvalidAge (-5) e
        /\ classify_age_group (-5) = Raise e'
        /\ recommend_glasses "oval" (-5) = Raise e'
        /\ InvalidAge (-5) e').
Proof.
  split.
  - intros s a H. eexists. split; [apply recommend_glasses_unknown, H|].
    split; [reflexivity|].
    apply (UnknownFaceShape_not_InvalidAge (normalize s) FaceShape). reflexivity.
  - do 2 eexists. split; [reflexivity|]. split; [reflexivity|].
    split; [apply (UnknownFaceShape_not_InvalidAge "hexagon" FaceShape); reflexivity|].
    split; [reflexivity|]. split; [reflexivity|]. left; reflexivity.
Qed.

Lemma C10_witness :
  ~ In (normalize "Star") FaceShape
  /\ exists e,
       recommend_glasses "Star" 999 = Raise e
       /\ UnknownFaceShape "star" FaceShape e
       /\ ~ InvalidAge 999 e.
Proof.
  assert (H : ~ In (normalize "Star") FaceShape).
  { vm_compute. intros H.
    repeat (destruct H as [H|H]; [discriminate H|]). exact H. }
  split; [exact H|].
  exact (proj1 C10_face_shape_checked_before_age "Star" 999 H).
Defined.

(* ------------------------------------------------------------------ *)
(** ** The filter on the frame list *)

Lemma list_contains_In (xs : list string) (x : string) :
  list_contains xs x = true <-> In x xs.
Proof.
  unfold list_contains. rewrite existsb_exists. split.
  - intros (y & Hy & Heq). apply String.eqb_eq in Heq. now subst.
  - intros H. exists x. split; [exact H | apply String.eqb_refl].
Qed.

Lemma strike_filter (a : string) (xs : list string) :
  strike a xs = filter (fun f => negb (String.eqb f a)) xs.
Proof.
  unfold strike. induction xs as [|x xs IH]; simpl; [reflexivity|].
  destruct (string_dec a x) as [<-|Hne].
  - now rewrite String.eqb_refl.
  - destruct (String.eqb_spec x a) as [->|_]; [now elim Hne|].
    simpl. now rewrite IH.
Qed.

Lemma filter_twice {A : Type} (p q : A -> bool) (xs : list A) :
  filter p (filter q xs) = filter (fun x => q x && p x) xs.
Proof.
  induction xs as [|x xs IH]; simpl; [reflexivity|].
  destruct (q x); simpl; [destruct (p x)|]; now rewrite IH.
Qed.

Lemma filter_all {A : Type} (xs : list A) : filter (fun _ => true) xs = xs.
Proof. induction xs; simpl; congruence. Qed.

Lemma filter_subseq {A : Type} (p : A -> bool) (xs : list A) :
  subseq (filter p xs) xs.
Proof.
  induction xs as [|x xs IH]; simpl; [constructor|].
  destruct (p x); now constructor.
Qed.

(** The list comprehension of the source computes the list that the
    specification describes. *)
Lemma comprehension_without_avoided (avoided base : list string) :
  filter (fun f => negb (list_contains avoided f)) base
  = without_avoided base avoided.
Proof.
  revert base. induction avoided as [|a avoided IH]; intros base.
  - apply filter_all.
  - unfold without_avoided. cbn [fold_left].
    fold (without_avoided (strike a base) avoided).
    rewrite <- IH, strike_filter, filter_twice.
    apply filter_ext. intros f. unfold list_contains. cbn [existsb].
    now rewrite negb_orb.
Qed.

Lemma recommend_glasses_ok (s : string) (a : Z) base g m :
  dict_lookup _FACE_SHAPE_FRAMES (normalize s) = Some base ->
  classify_age_group a = Return g ->
  dict_lookup _AGE_GROUP_MODIFIERS g = Some m ->
  recommend_glasses s a
  = Return {| face_shape := normalize s;
              age := a;
              age_group := g;
              recommended_frames :=
                filter (fun f => negb (list_contains (avoid m) f)) base;
              preferred_features := prefer m;
              frames_to_avoid := avoid m;
              fit_notes := fit_notes_of m;
              lens_suggestions := dict_get _AGE_LENS_SUGGESTIONS g [] |}.
Proof. apply recommend_glasses_in_ok. Qed.

(** Every supported shape at every age of [0,150] passes the three
    look-ups of the engine. *)
Lemma recommend_glasses_lookups (s : string) (a : Z) :
  In (normalize s) FaceShape -> 0 <= a <= 150 ->
  exists base g m,
    dict_lookup _FACE_SHAPE_FRAMES (normalize s) = Some base
    /\ classify_age_group a = Return g
    /\ In g AgeGroup
    /\ dict_lookup _AGE_GROUP_MODIFIERS g = Some m.
Proof.
  intros Hs Ha.
  rewrite <- FaceShape_keys in Hs. apply dict_lookup_keys in Hs as [base Hbase].
  destruct (classify_age_group_in_range a Ha) as (g & Hg & Hin).
  pose proof Hin as Hin'.
  rewrite <- (proj1 (proj2 AgeGroup_keys)) in Hin'.
  apply dict_lookup_keys in Hin' as [m Hm].
  now exists base, g, m.
Qed.

(** C2. For a supported face shape and a valid age, [recommended_frames]
    is the base frame list of the shape with every entry of the age
    group's avoid list removed, the remaining entries in their original
    order; "rimless" is absent for "square" at age 10 and present for
    "square" at age 25. *)
Theorem C2_recommended_frames_stable_filter :
  (forall (s : string) (a : Z),
     In (normalize s) FaceShape -> 0 <= a <= 150 ->
     exists r base g m,
       recommend_glasses s a = Return r
       /\ dict_lookup _FACE_SHAPE_FRAMES (normalize s) = Some base
       /\ classify_age_group a = Return g
       /\ dict_lookup _AGE_GROUP_MODIFIERS g = Some m
       /\ frames_to_avoid r = avoid m
       /\ recommended_frames r = without_avoided base (frames_to_avoid r)
       /\ subseq (recommended_frames r) base
       /\ (forall f, In f (recommended_frames r)
                     <-> In f base /\ ~ In f (frames_to_avoid r)))
  /\ (exists r10 r25,
        recommend_glasses "square" 10 = Return r10
        /\ recommend_glasses "square" 25 = Return r25
        /\ ~ In "rimless" (recommended_frames r10)
        /\ In "rimless" (recommended_frames r25)
        /\ recommended_frames r10 = ["round"; "oval"; "cat-eye"; "aviator"]
        /\ recommended_frames r25
           = ["round"; "oval"; "rimless"; "cat-eye"; "aviator"]).
Proof.
  split.
  - intros s a Hs Ha.
    destruct (recommend_glasses_lookups s a Hs Ha) as (base & g & m & Hb & Hg & _ & Hm).
    eexists; exists base, g, m.
    split; [apply (recommend_glasses_ok s a base g m Hb Hg Hm)|].
    cbn [frames_to_avoid recommended_frames].
    repeat (split; [assumption || reflexivity|]).
    split; [apply comprehension_without_avoided|].
    split; [apply filter_subseq|].
    intros f. rewrite filter_In, negb_true_iff, <- not_true_iff_false,
      list_contains_In. reflexivity.
  - do 2 eexists. split; [reflexivity|]. split; [reflexivity|].
    cbn [recommended_frames].
    split; [|split; [|split; reflexivity]].
    + vm_compute. intros H.
      repeat (destruct H as [H|H]; [discriminate H|]). exact H.
    + vm_compute. tauto.
Qed.

Lemma C2_witness :
  In (normalize "Heart") FaceShape /\ 0 <= 7 <= 150
  /\ exists r,
       recommend_glasses "Heart" 7 = Return r
       /\ recommended_frames r
          = without_avoided ["aviator"; "round"; "rimless"; "light-colored frames"]
              ["rimless"; "large frames"; "heavy metal frames"]
       /\ recommended_frames r = ["aviator"; "round"; "light-colored frames"].
Proof.
  assert (Hs : In (normalize "Heart") FaceShape) by (vm_compute; tauto).
  assert (Ha : 0 <= 7 <= 150) by lia.
  split; [exact Hs|]. split; [exact Ha|].
  destruct (proj1 C2_recommended_frames_stable_filter "Heart" 7 Hs Ha)
    as (r & base & g & m & Hr & Hb & Hg & Hm & Hav & Hrec & _).
  exists r. split; [exact Hr|].
  vm_compute in Hb, Hg. injection Hb as <-. injection Hg as <-.
  vm_compute in Hm. injection Hm as <-.
  rewrite Hav in Hrec. split; [exact Hrec|]. rewrite Hrec. reflexivity.
Defined.

(* ------------------------------------------------------------------ *)
(** ** Every shape and age group yields a recommendation *)

(** The avoid lists never empty a base frame list. *)
Lemma frames_survive_filter (shape group : string) base m :
  dict_lookup _FACE_SHAPE_FRAMES shape = Some base ->
  dict_lookup _AGE_GROUP_MODIFIERS group = Some m ->
  filter (fun f => negb (list_contains (avoid m) f)) base <> [].
Proof.
  intros Hb Hm.
  assert (Hs : In shape (dict_keys _FACE_SHAPE_FRAMES))
    by (apply dict_lookup_keys; eauto).
  assert (Hg : In group (dict_keys _AGE_GROUP_MODIFIERS))
    by (apply dict_lookup_keys; eauto).
  cbn in Hs, Hg.
  repeat (destruct Hs as [<-|Hs]); try contradiction;
    vm_compute in Hb; injection Hb as <-;
    repeat (destruct Hg as [<-|Hg]); try contradiction;
    vm_compute in Hm; injection Hm as <-;
    vm_compute; discriminate.
Qed.

(** C3. For each of the 7 face-shape labels (also written with other case
    or surrounding white space) and each age in [0,150], hence each of the
    5 age groups, [recommend_glasses] returns a recommendation and its
    [recommended_frames] is not empty. *)
Theorem C3_all_combinations_succeed :
  (forall (s : string) (a : Z),
     In (normalize s) FaceShape -> 0 <= a <= 150 ->
     exists r,
       recommend_glasses s a = Return r
       /\ face_shape r = normalize s
       /\ In (age_group r) AgeGroup
       /\ recommended_frames r <> [])
  /\ (forall shape, In shape FaceShape -> In (normalize shape) FaceShape)
  /\ (forall group, In group AgeGroup ->
        exists a, 0 <= a <= 150 /\ classify_age_group a = Return group).
Proof.
  split; [|split].
  - intros s a Hs Ha.
    destruct (recommend_glasses_lookups s a Hs Ha)
      as (base & g & m & Hb & Hg & Hin & Hm).
    eexists. split; [apply (recommend_glasses_ok s a base g m Hb Hg Hm)|].
    cbn [face_shape age_group recommended_frames].
    split; [reflexivity|]. split; [exact Hin|].
    exact (frames_survive_filter _ _ _ _ Hb Hm).
  - intros shape H. now rewrite (FaceShape_normalized shape H).
  - intros group H. simpl in H.
    destruct H as [<-|[<-|[<-|[<-|[<-|[]]]]]];
      [exists 8 | exists 15 | exists 25 | exists 45 | exists 70];
      (split; [lia | reflexivity]).
Qed.

Lemma C3_witness :
  In (normalize "  TRIANGLE") FaceShape /\ 0 <= 150 <= 150
  /\ exists r,
       recommend_glasses "  TRIANGLE" 150 = Return r
       /\ face_shape r = "triangle"
       /\ In (age_group r) AgeGroup
       /\ recommended_frames r <> [].
Proof.
  assert (Hs : In (normalize "  TRIANGLE") FaceShape) by (vm_compute; tauto).
  assert (Ha : 0 <= 150 <= 150) by lia.
  split; [exact Hs|]. split; [exact Ha|].
  exact (proj1 C3_all_combinations_succeed "  TRIANGLE" 150 Hs Ha).
Defined.

(* ------------------------------------------------------------------ *)
(** ** Age groups differentiate the recommendation *)

Lemma classify_child (a : Z) : 0 <= a <= 12 -> classify_age_group a = Return "child".
Proof. intros H. rewrite classify_age_group_cases. split_leb; try lia; reflexivity. Qed.

Lemma classify_senior (a : Z) :
  60 <= a <= 150 -> classify_age_group a = Return "senior".
Proof. intros H. rewrite classify_age_group_cases. split_leb; try lia; reflexivity. Qed.

(** C8. The preferred features for "oval" at age 8 differ from those for
    "oval" at age 70; and for every supported face shape the fit notes of
    a child-age call differ from the fit notes of a senior-age call. *)
Theorem C8_age_groups_differentiate :
  (exists r8 r70,
     recommend_glasses "oval" 8 = Return r8
     /\ recommend_glasses "oval" 70 = Return r70
     /\ preferred_features r8 <> preferred_features r70
     /\ fit_notes r8 <> fit_notes r70)
  /\ (forall (s : string) (child senior : Z),
        In (normalize s) FaceShape ->
        0 <= child <= 12 -> 60 <= senior <= 150 ->
        exists rc rs,
          recommend_glasses s child = Return rc
          /\ recommend_glasses s senior = Return rs
          /\ age_group rc = "child"
          /\ age_group rs = "senior"
          /\ fit_notes rc <> fit_notes rs
          /\ preferred_features rc <> preferred_features rs).
Proof.
  split.
  - do 2 eexists. split; [reflexivity|]. split; [reflexivity|].
    split; vm_compute; discriminate.
  - intros s child senior Hs Hc Hsen.
    rewrite <- FaceShape_keys in Hs. apply dict_lookup_keys in Hs as [base Hb].
    do 2 eexists.
    split; [eapply recommend_glasses_ok;
            [exact Hb | apply classify_child, Hc | reflexivity]|].
    split; [eapply recommend_glasses_ok;
            [exact Hb | apply classify_senior, Hsen | reflexivity]|].
    cbn [age_group fit_notes preferred_features].
    split; [reflexivity|]. split; [reflexivity|].
    split; vm_compute; discriminate.
Qed.

Lemma C8_witness :
  In (normalize "Diamond ") FaceShape /\ 0 <= 12 <= 12 /\ 60 <= 60 <= 150
  /\ exists rc rs,
       recommend_glasses "Diamond " 12 = Return rc
       /\ recommend_glasses "Diamond " 60 = Return rs
       /\ age_group rc = "child"
       /\ age_group rs = "senior"
       /\ fit_notes rc <> fit_notes rs
       /\ preferred_features rc <> preferred_features rs.
Proof.
  assert (Hs : In (normalize "Diamond ") FaceShape) by (vm_compute; tauto).
  assert (Hc : 0 <= 12 <= 12) by lia.
  assert (Hsen : 60 <= 60 <= 150) by lia.
  split; [exact Hs|]. split; [exact Hc|]. split; [exact Hsen|].
  exact (proj2 C8_age_groups_differentiate "Diamond " 12 60 Hs Hc Hsen).
Defined.

(* ------------------------------------------------------------------ *)
(** ** The fields of a returned recommendation *)

(** C7. A returned recommendation has every field populated from the
    tables: the normalised face shape, the age, the classified age group,
    the recommended frames (the shape's base frame list without the
    group's frames to avoid), and the preferred features, frames to avoid
    and fit notes of that group's modifier entry; its lens suggestions are
    the group's entry of the lens table, or the empty list when the table
    has no such entry, in which case the call still returns the otherwise
    complete record. With the module's own tables the lens entry always
    exists. *)
Theorem C7_fields_from_tables
  (age_groups : dict (Z * Z)) (face_shape_frames : dict (list string))
  (age_group_modifiers : dict Modifiers)
  (age_lens_suggestions : dict (list string)) (s : string) (a : Z) :
  (forall r,
     recommend_glasses_in age_groups face_shape_frames age_group_modifiers
       age_lens_suggestions s a = Return r ->
     exists base g m,
       dict_lookup face_shape_frames (normalize s) = Some base
       /\ classify_age_group_in age_groups a = Return g
       /\ dict_lookup age_group_modifiers g = Some m
       /\ face_shape r = normalize s
       /\ age r = a
       /\ age_group r = g
       /\ recommended_frames r
          = filter (fun f => negb (list_contains (avoid m) f)) base
       /\ recommended_frames r = without_avoided base (avoid m)
       /\ preferred_features r = prefer m
       /\ frames_to_avoid r = avoid m
       /\ fit_notes r = fit_notes_of m
       /\ lens_suggestions r
          = match dict_lookup age_lens_suggestions g with
            | Some lenses => lenses
            | None => []
            end)
  /\ (forall base g m,
        dict_lookup face_shape_frames (normalize s) = Some base ->
        classify_age_group_in age_groups a = Return g ->
        dict_lookup age_group_modifiers g = Some m ->
        dict_lookup age_lens_suggestions g = None ->
        recommend_glasses_in age_groups face_shape_frames age_group_modifiers
          age_lens_suggestions s a
        = Return {| face_shape := normalize s;
                    age := a;
                    age_group := g;
                    recommended_frames := without_avoided base (avoid m);
                    preferred_features := prefer m;
                    frames_to_avoid := avoid m;
                    fit_notes := fit_notes_of m;
                    lens_suggestions := [] |})
  /\ (forall r,
        recommend_glasses s a = Return r ->
        exists base m lenses,
          dict_lookup _FACE_SHAPE_FRAMES (face_shape r) = Some base
          /\ classify_age_group a = Return (age_group r)
          /\ dict_lookup _AGE_GROUP_MODIFIERS (age_group r) = Some m
          /\ dict_lookup _AGE_LENS_SUGGESTIONS (age_group r) = Some lenses
          /\ r = {| face_shape := normalize s;
                    age := a;
                    age_group := age_group r;
                    recommended_frames := without_avoided base (avoid m);
                    preferred_features := prefer m;
                    frames_to_avoid := avoid m;
                    fit_notes := fit_notes_of m;
                    lens_suggestions := lenses |}).
Proof.
  split; [|split].
  - intros r Hr.
    destruct (recommend_glasses_in_inv _ _ _ _ _ _ _ Hr) as (base & g & m & Hb & Hg & Hm).
    exists base, g, m.
    rewrite (recommend_glasses_in_ok _ _ _ age_lens_suggestions _ _ _ _ _ Hb Hg Hm) in Hr.
    injection Hr as <-.
    cbn [face_shape age age_group recommended_frames preferred_features
         frames_to_avoid fit_notes lens_suggestions].
    rewrite <- comprehension_without_avoided. unfold dict_get. tauto.
  - intros base g m Hb Hg Hm Hl.
    rewrite (recommend_glasses_in_ok _ _ _ age_lens_suggestions _ _ _ _ _ Hb Hg Hm).
    unfold dict_get. now rewrite Hl, comprehension_without_avoided.
  - intros r Hr.
    destruct (recommend_glasses_in_inv _ _ _ _ _ _ _ Hr) as (base & g & m & Hb & Hg & Hm).
    unfold recommend_glasses in Hr.
    rewrite (recommend_glasses_in_ok _ _ _ _ _ _ _ _ _ Hb Hg Hm) in Hr.
    injection Hr as <-. cbn [face_shape age_group].
    rewrite comprehension_without_avoided.
    change (classify_age_group a = Return g) in Hg.
    assert (Hin : In g (dict_keys _AGE_GROUP_MODIFIERS))
      by (apply dict_lookup_keys; eauto).
    assert (Hl : exists lenses, dict_lookup _AGE_LENS_SUGGESTIONS g = Some lenses).
    { cbn in Hin.
      repeat (destruct Hin as [<-|Hin]; [eexists; reflexivity|]). contradiction. }
    destruct Hl as [lenses Hl].
    exists base, m, lenses. unfold dict_get. rewrite Hl. tauto.
Qed.

Lemma C7_witness :
  dict_lookup _FACE_SHAPE_FRAMES (normalize "Oval") = Some
    ["aviator"; "wayfarer"; "round"; "cat-eye"; "geometric"]
  /\ classify_age_group_in AGE_GROUPS 45 = Return "adult"
  /\ dict_lookup (V := list string) [("child", ["polycarbonate lenses"])] "adult" = None
  /\ (exists r,
        recommend_glasses_in AGE_GROUPS _FACE_SHAPE_FRAMES _AGE_GROUP_MODIFIERS
          [("child", ["polycarbonate lenses"])] "Oval" 45 = Return r
        /\ recommended_frames r
           = ["aviator"; "wayfarer"; "round"; "cat-eye"; "geometric"]
        /\ lens_suggestions r = [])
  /\ (exists r,
        recommend_glasses "Oval" 45 = Return r
        /\ age_group r = "adult"
        /\ recommended_frames r
           = ["aviator"; "wayfarer"; "round"; "cat-eye"; "geometric"]
        /\ dict_lookup _AGE_LENS_SUGGESTIONS "adult" = Some (lens_suggestions r)).
Proof.
  split; [reflexivity|]. split; [reflexivity|]. split; [reflexivity|].
  split.
  - eexists. split.
    + eapply (proj1 (proj2 (C7_fields_from_tables AGE_GROUPS _FACE_SHAPE_FRAMES
                              _AGE_GROUP_MODIFIERS
                              [("child", ["polycarbonate lenses"])] "Oval" 45)));
        reflexivity.
    + split; reflexivity.
  - destruct (recommend_glasses "Oval" 45) as [r|e] eqn:Hr; [|discriminate Hr].
    exists r. split; [reflexivity|].
    destruct (proj1 (C7_fields_from_tables AGE_GROUPS _FACE_SHAPE_FRAMES
                       _AGE_GROUP_MODIFIERS _AGE_LENS_SUGGESTIONS "Oval" 45) r Hr)
      as (base & g & m & Hb & Hg & Hm & _ & _ & Hgroup & Hrec & _ & _ & _ & _ & Hlens).
    vm_compute in Hb, Hg. injection Hb as <-. injection Hg as <-.
    vm_compute in Hm. injection Hm as <-.
    split; [exact Hgroup|]. split; [rewrite Hrec; reflexivity|].
    rewrite Hlens. reflexivity.
Defined.

(* ------------------------------------------------------------------ *)
(** ** Lines of a text *)

Lemma has_char_append (c : ascii) (s t : string) :
  has_char c (s ++ t) = has_char c s || has_char c t.
Proof.
  induction s as [|d s IH]; simpl; [reflexivity|].
  now rewrite IH, orb_assoc.
Qed.

Lemma one_line_append (s t : string) :
  one_line (s ++ t) = one_line s && one_line t.
Proof. unfold one_line. now rewrite has_char_append, negb_orb. Qed.

Lemma join_cons (sep x y : string) (ys : list string) :
  join sep (x :: y :: ys) = x ++ sep ++ join sep (y :: ys).
Proof. reflexivity. Qed.

Lemma one_line_join (sep : string) (xs : list string) :
  one_line sep = true -> forallb one_line xs = true ->
  one_line (join sep xs) = true.
Proof.
  intros Hsep. induction xs as [|x [|y ys] IH]; intros H.
  - reflexivity.
  - simpl in H |- *. now apply andb_true_iff in H.
  - rewrite join_cons, !one_line_append, Hsep.
    cbn [forallb] in H. apply andb_true_iff in H as [-> H].
    now rewrite (IH H).
Qed.

Lemma one_line_uint (d : Decimal.uint) :
  one_line (NilEmpty.string_of_uint d) = true.
Proof. induction d; simpl; try reflexivity; exact IHd. Qed.

Lemma one_line_str_int (n : Z) : one_line (str_int n) = true.
Proof.
  unfold str_int.
  destruct (Z.to_int n) as [d|d]; cbn [NilZero.string_of_int];
    destruct d; try reflexivity;
    apply (one_line_uint (Decimal.D0 d)) || apply (one_line_uint (Decimal.D1 d))
    || apply (one_line_uint (Decimal.D2 d)) || apply (one_line_uint (Decimal.D3 d))
    || apply (one_line_uint (Decimal.D4 d)) || apply (one_line_uint (Decimal.D5 d))
    || apply (one_line_uint (Decimal.D6 d)) || apply (one_line_uint (Decimal.D7 d))
    || apply (one_line_uint (Decimal.D8 d)) || apply (one_line_uint (Decimal.D9 d)).
Qed.

Lemma split_lines_nonempty (s : string) : split_lines s <> [].
Proof.
  induction s as [|c s IH]; simpl; [discriminate|].
  destruct (Ascii.eqb c LF); [discriminate|].
  destruct (split_lines s); discriminate.
Qed.

Lemma split_lines_one_line (s : string) :
  one_line s = true -> split_lines s = [s].
Proof.
  unfold one_line. induction s as [|c s IH]; [reflexivity|].
  cbn [has_char split_lines]. rewrite (Ascii.eqb_sym LF c).
  destruct (Ascii.eqb c LF); [discriminate|].
  cbn [orb]. intros H. now rewrite (IH H).
Qed.

(** Splitting at a line break that is known to be there. *)
Lemma split_lines_break (s t : string) :
  split_lines (s ++ String LF t) = (split_lines s ++ split_lines t)%list.
Proof.
  induction s as [|c s IH]; [reflexivity|].
  cbn [append split_lines]. destruct (Ascii.eqb c LF).
  - now rewrite IH.
  - rewrite IH. pose proof (split_lines_nonempty s).
    destruct (split_lines s); [contradiction | reflexivity].
Qed.

Lemma split_lines_join (xs : list string) :
  xs <> [] ->
  split_lines (join (String LF "") xs) = flat_map split_lines xs.
Proof.
  induction xs as [|x [|y ys] IH]; intros H.
  - contradiction.
  - simpl. now rewrite app_nil_r.
  - rewrite join_cons. cbn [append flat_map].
    rewrite split_lines_break, IH by discriminate. reflexivity.
Qed.

Lemma flat_map_singletons {A : Type} (f : A -> list A) (xs : list A) :
  (forall x, In x xs -> f x = [x]) -> flat_map f xs = xs.
Proof.
  induction xs as [|x xs IH]; intros H; simpl; [reflexivity|].
  rewrite (H x) by (left; reflexivity).
  rewrite IH by (intros y Hy; apply H; right; exact Hy). reflexivity.
Qed.

(** The first line of a text that starts with a label without line break
    starts with that label. *)
Lemma split_lines_label (label rest : string) :
  one_line label = true ->
  exists l ls, split_lines (label ++ rest) = (label ++ l) :: ls.
Proof.
  unfold one_line. induction label as [|c label IH].
  - intros _. cbn [append]. pose proof (split_lines_nonempty rest).
    destruct (split_lines rest) as [|l ls]; [contradiction|]. now exists l, ls.
  - cbn [has_char split_lines append]. rewrite (Ascii.eqb_sym LF c).
    destruct (Ascii.eqb c LF); [discriminate|].
    cbn [orb]. intros H. destruct (IH H) as (l & ls & ->). now exists l, ls.
Qed.

Lemma has_line_intro (label rest : string) (xs : list string) :
  one_line label = true -> xs <> [] -> In (label ++ rest) xs ->
  has_line label (join (String LF "") xs) = true.
Proof.
  intros Hl Hne Hin. unfold has_line.
  rewrite split_lines_join by exact Hne.
  destruct (split_lines_label label rest Hl) as (l & ls & Hsplit).
  apply existsb_exists. exists (label ++ l). split.
  - apply in_flat_map. exists (label ++ rest). split; [exact Hin|].
    rewrite Hsplit. left; reflexivity.
  - apply prefix_append.
Qed.

Lemma contains_append_l (sub s t : string) :
  contains sub s = true -> contains sub (s ++ t) = true.
Proof.
  rewrite !contains_spec. intros (pre & post & ->).
  exists pre, (post ++ t). now rewrite !append_assoc.
Qed.

Lemma contains_append_r (sub s t : string) :
  contains sub s = true -> contains sub (t ++ s) = true.
Proof.
  intros H. induction t as [|c t IH]; [exact H|].
  cbn [append]. apply contains_later, IH.
Qed.

Lemma contains_join (sub sep x : string) (xs : list string) :
  In x xs -> contains sub x = true -> contains sub (join sep xs) = true.
Proof.
  intros Hin Hx. induction xs as [|y [|z zs] IH].
  - contradiction.
  - destruct Hin as [->|[]]. exact Hx.
  - rewrite join_cons. destruct Hin as [->|Hin].
    + now apply contains_append_l.
    + apply contains_append_r, contains_append_r, IH, Hin.
Qed.

Lemma flat_map_split_lines_length (xs : list string) :
  (List.length xs <= List.length (flat_map split_lines xs))%nat.
Proof.
  induction xs as [|x xs IH]; simpl; [lia|].
  rewrite length_app. pose proof (split_lines_nonempty x).
  destruct (split_lines x); [contradiction | simpl; lia].
Qed.

(* ------------------------------------------------------------------ *)
(** ** Rendering a recommendation *)

Lemma summary_lines_nonempty (r : GlassRecommendation) : summary_lines r <> [].
Proof.
  unfold summary_lines, list_append.
  destruct (frames_to_avoid r), (lens_suggestions r); discriminate.
Qed.

Lemma summary_lines_length (r : GlassRecommendation) :
  (5 <= List.length (summary_lines r))%nat.
Proof.
  unfold summary_lines, list_append.
  destruct (frames_to_avoid r), (lens_suggestions r); simpl; lia.
Qed.

Lemma summary_lines_one_line (r : GlassRecommendation) :
  one_line_fields r = true ->
  forall x, In x (summary_lines r) -> one_line x = true.
Proof.
  unfold one_line_fields. rewrite !andb_true_iff.
  intros ((((((Hshape & Hgroup) & Hnotes) & Hframes) & Hfeat) & Havoid) & Hlens).
  unfold summary_lines, list_append.
  destruct (frames_to_avoid r), (lens_suggestions r);
    cbn [app In]; intros x Hx;
    repeat (destruct Hx as [<-|Hx]); try contradiction;
    rewrite ?one_line_append, ?andb_true_iff; repeat split;
    try reflexivity; try assumption; try apply one_line_str_int;
    apply one_line_join; (reflexivity || assumption).
Qed.

(** Without line breaks inside the fields, the lines of the rendered text
    are the lines the method assembled. *)
Lemma split_lines_summary (r : GlassRecommendation) :
  one_line_fields r = true -> split_lines (summary r) = summary_lines r.
Proof.
  intros H. unfold summary.
  rewrite split_lines_join by apply summary_lines_nonempty.
  apply flat_map_singletons. intros x Hx.
  apply split_lines_one_line, (summary_lines_one_line r H x Hx).
Qed.

Lemma In_summary_lines (r : GlassRecommendation) :
  In ("Face shape  : " ++ face_shape r) (summary_lines r)
  /\ In ("Age         : " ++ str_int (age r) ++ " (" ++ age_group r ++ ")")
       (summary_lines r)
  /\ In ("Fit notes   : " ++ fit_notes r) (summary_lines r)
  /\ (frames_to_avoid r <> [] ->
      In (AVOID_LABEL ++ join ", " (frames_to_avoid r)) (summary_lines r))
  /\ (lens_suggestions r <> [] ->
      In (LENSES_LABEL ++ join ", " (lens_suggestions r)) (summary_lines r)).
Proof.
  unfold summary_lines, list_append, AVOID_LABEL, LENSES_LABEL.
  destruct (frames_to_avoid r), (lens_suggestions r); cbn [app In];
    repeat split; intros; try contradiction; tauto.
Qed.

(** Among the assembled lines, one starts with the avoid label exactly
    when [frames_to_avoid] is non-empty, and one with the lenses label
    exactly when [lens_suggestions] is non-empty, whatever the fields
    hold. *)
Lemma summary_lines_labels (r : GlassRecommendation) :
  (existsb (String.prefix AVOID_LABEL) (summary_lines r) = true
   <-> frames_to_avoid r <> [])
  /\ (existsb (String.prefix LENSES_LABEL) (summary_lines r) = true
      <-> lens_suggestions r <> []).
Proof.
  unfold summary_lines, list_append, AVOID_LABEL, LENSES_LABEL.
  destruct (frames_to_avoid r) as [|f fs], (lens_suggestions r) as [|l ls];
    cbn [app existsb];
    repeat match goal with
      | |- context [String.prefix ?p (?p ++ ?x)] => rewrite (prefix_append p x)
      end;
    cbn; rewrite ?orb_true_r;
    repeat split; intros; try discriminate; try reflexivity; congruence.
Qed.

(** Every recommendation the engine returns has fields without line
    breaks. *)
Lemma recommend_glasses_one_line (s : string) (a : Z) (r : GlassRecommendation) :
  recommend_glasses s a = Return r -> one_line_fields r = true.
Proof.
  intros H.
  destruct (recommend_glasses_in_inv _ _ _ _ _ _ _ H) as (base & g & m & Hb & Hg & Hm).
  rewrite (recommend_glasses_ok s a base g m Hb Hg Hm) in H. injection H as <-.
  assert (Hs : In (normalize s) (dict_keys _FACE_SHAPE_FRAMES))
    by (apply dict_lookup_keys; eauto).
  assert (Hin : In g (dict_keys _AGE_GROUP_MODIFIERS))
    by (apply dict_lookup_keys; eauto).
  clear Hg. revert Hb Hs. generalize (normalize s). intros shape Hb Hs.
  cbn in Hs, Hin.
  repeat (destruct Hs as [<-|Hs]); try contradiction;
    vm_compute in Hb; injection Hb as <-;
    repeat (destruct Hin as [<-|Hin]); try contradiction;
    vm_compute in Hm; injection Hm as <-;
    vm_compute; reflexivity.
Qed.

(** C9. For every recommendation, [summary] returns a text of at least
    five lines -- the assembled lines joined by line breaks -- that
    contains the face shape, the age-group label and the fit notes
    verbatim; the assembled lines include an avoid line if and only if
    [frames_to_avoid] is non-empty and a lenses line if and only if
    [lens_suggestions] is non-empty. For every recommendation that
    [recommend_glasses] returns, and whenever no field holds a line break,
    the lines of the text are exactly the assembled ones, so the text has
    an avoid line if and only if [frames_to_avoid] is non-empty and a
    lenses line if and only if [lens_suggestions] is non-empty. *)
Theorem C9_summary_rendering (r : GlassRecommendation) :
  summary r = join (String LF "") (summary_lines r)
  /\ (5 <= List.length (split_lines (summary r)))%nat
  /\ contains (face_shape r) (summary r) = true
  /\ contains (age_group r) (summary r) = true
  /\ contains (fit_notes r) (summary r) = true
  /\ (existsb (String.prefix AVOID_LABEL) (summary_lines r) = true
      <-> frames_to_avoid r <> [])
  /\ (existsb (String.prefix LENSES_LABEL) (summary_lines r) = true
      <-> lens_suggestions r <> [])
  /\ (frames_to_avoid r <> [] -> has_line AVOID_LABEL (summary r) = true)
  /\ (lens_suggestions r <> [] -> has_line LENSES_LABEL (summary r) = true)
  /\ (one_line_fields r = true ->
      split_lines (summary r) = summary_lines r
      /\ (has_line AVOID_LABEL (summary r) = true <-> frames_to_avoid r <> [])
      /\ (has_line LENSES_LABEL (summary r) = true <-> lens_suggestions r <> []))
  /\ (forall s a,
        recommend_glasses s a = Return r ->
        one_line_fields r = true
        /\ split_lines (summary r) = summary_lines r
        /\ (has_line AVOID_LABEL (summary r) = true <-> frames_to_avoid r <> [])
        /\ (has_line LENSES_LABEL (summary r) = true <-> lens_suggestions r <> [])).
Proof.
  destruct (In_summary_lines r) as (Hshape & Hgroup & Hnotes & Havoid & Hlens).
  split; [reflexivity|].
  split.
  { unfold summary. rewrite split_lines_join by apply summary_lines_nonempty.
    pose proof (summary_lines_length r).
    pose proof (flat_map_split_lines_length (summary_lines r)). lia. }
  split; [apply (contains_join _ _ _ _ Hshape), contains_suffix|].
  split.
  { apply (contains_join _ _ _ _ Hgroup), contains_spec.
    exists ("Age         : " ++ str_int (age r) ++ " ("), ")".
    now rewrite !append_assoc. }
  split; [apply (contains_join _ _ _ _ Hnotes), contains_suffix|].
  assert (Hav : frames_to_avoid r <> [] -> has_line AVOID_LABEL (summary r) = true).
  { intros H. apply (has_line_intro AVOID_LABEL (join ", " (frames_to_avoid r)));
      [reflexivity | apply summary_lines_nonempty | exact (Havoid H)]. }
  assert (Hle : lens_suggestions r <> [] -> has_line LENSES_LABEL (summary r) = true).
  { intros H. apply (has_line_intro LENSES_LABEL (join ", " (lens_suggestions r)));
      [reflexivity | apply summary_lines_nonempty | exact (Hlens H)]. }
  destruct (summary_lines_labels r) as [Havl Hlel].
  split; [exact Havl|]. split; [exact Hlel|].
  split; [exact Hav|]. split; [exact Hle|].
  assert (Hlines : one_line_fields r = true ->
            split_lines (summary r) = summary_lines r
            /\ (has_line AVOID_LABEL (summary r) = true <-> frames_to_avoid r <> [])
            /\ (has_line LENSES_LABEL (summary r) = true
                <-> lens_suggestions r <> [])).
  { intros Hone. pose proof (split_lines_summary r Hone) as Hsplit.
    split; [exact Hsplit|].
    unfold has_line. rewrite Hsplit. split; assumption. }
  split; [exact Hlines|].
  intros s a Hr. pose proof (recommend_glasses_one_line s a r Hr) as Hone.
  split; [exact Hone | exact (Hlines Hone)].
Qed.

Lemma C9_witness :
  match recommend_glasses "square" 10 with
  | Return r =>
      frames_to_avoid r <> []
      /\ lens_suggestions r <> []
      /\ one_line_fields r = true
      /\ has_line AVOID_LABEL (summary r) = true
      /\ has_line LENSES_LABEL (summary r) = true
      /\ split_lines (summary r) = summary_lines r
  | Raise _ => False
  end.
Proof.
  destruct (recommend_glasses "square" 10) as [r|e] eqn:Hr; [|discriminate Hr].
  destruct (C9_summary_rendering r)
    as (_ & _ & _ & _ & _ & _ & _ & Havoid & Hlens & Hiff & Hengine).
  destruct (Hengine "square" 10 Hr) as (Hone & Hsplit & _ & _).
  assert (Hav : frames_to_avoid r <> [])
    by (vm_compute in Hr; injection Hr as <-; discriminate).
  assert (Hle : lens_suggestions r <> [])
    by (vm_compute in Hr; injection Hr as <-; discriminate).
  split; [exact Hav|]. split; [exact Hle|]. split; [exact Hone|].
  split; [exact (Havoid Hav)|]. split; [exact (Hlens Hle)|].
  exact (proj1 (Hiff Hone)).
Defined.

(* ================================================================== *)
(** * Further properties of the code *)

(* ------------------------------------------------------------------ *)
(** ** The classifier over an arbitrary range table *)

Lemma first_covering_none (items : dict (Z * Z)) (age : Z) :
  first_covering items age = None <-> misses age items = true.
Proof.
  unfold misses. induction items as [|[g [lo hi]] items IH]; cbn [first_covering forallb covers].
  - tauto.
  - destruct ((lo <=? age) && (age <=? hi)); cbn [negb andb].
    + split; discriminate.
    + exact IH.
Qed.

Lemma first_covering_some (items : dict (Z * Z)) (age : Z) (g : string) :
  first_covering items age = Some g <->
  exists pre lo hi post,
    items = (pre ++ (g, (lo, hi)) :: post)%list
    /\ lo <= age <= hi
    /\ misses age pre = true.
Proof.
  unfold misses. induction items as [|[g' [lo' hi']] items IH]; cbn [first_covering].
  - split; [discriminate|]. intros (pre & lo & hi & post & H & _).
    destruct pre; discriminate H.
  - destruct ((lo' <=? age) && (age <=? hi')) eqn:E.
    + split.
      * intros [= <-]. exists [], lo', hi', items.
        apply andb_true_iff in E as [E1 E2].
        repeat split; try reflexivity; lia.
      * intros (pre & lo & hi & post & H & Hin & Hpre).
        destruct pre as [|[g0 [lo0 hi0]] pre].
        -- now injection H as -> _ _ _.
        -- injection H as -> -> -> _. cbn [forallb covers] in Hpre.
           rewrite E in Hpre. discriminate Hpre.
    + rewrite IH. split.
      * intros (pre & lo & hi & post & -> & Hin & Hpre).
        exists ((g', (lo', hi')) :: pre), lo, hi, post.
        repeat split; try tauto. cbn [forallb covers]. now rewrite E.
      * intros (pre & lo & hi & post & H & Hin & Hpre).
        destruct pre as [|[g0 [lo0 hi0]] pre].
        -- injection H as _ -> -> _.
           assert ((lo <=? age) && (age <=? hi) = true)
             by (apply andb_true_iff; split; lia).
           congruence.
        -- injection H as _ _ _ ->. cbn [forallb] in Hpre.
           apply andb_true_iff in Hpre as [_ Hpre].
           exists pre, lo, hi, post. tauto.
Qed.

(** X1. Over any range table, [classify_age_group] returns a label exactly
    when the age is not negative and the label belongs to the first entry,
    in table order, whose inclusive range holds the age: the first match
    wins, later overlapping entries are never reached. *)
Theorem X1_classify_first_match
  (groups : dict (Z * Z)) (age : Z) (g : string) :
  classify_age_group_in groups age = Return g <->
  0 <= age
  /\ exists pre lo hi post,
       groups = (pre ++ (g, (lo, hi)) :: post)%list
       /\ lo <= age <= hi
       /\ misses age pre = true.
Proof.
  unfold classify_age_group_in. rewrite <- first_covering_some.
  destruct (Z.ltb_spec age 0) as [Hlt|Hge].
  - split; [discriminate | lia].
  - destruct (first_covering groups age) as [g'|].
    + split; [intros [= ->]; tauto | intros [_ [= ->]]; reflexivity].
    + split; [discriminate | intros [_ Hsome]; discriminate Hsome].
Qed.

(** X2. Over any range table, [classify_age_group] raises for a negative
    age whatever the table holds (a range that reaches below zero never
    classifies a negative age), raises the fall-through error for a
    non-negative age that no entry covers, and raises in no other case;
    with an empty table it raises for every age. *)
Theorem X2_classify_errors_any_table (groups : dict (Z * Z)) (age : Z) :
  (age < 0 ->
     classify_age_group_in groups age
     = Raise (ValueError ("Age must be non-negative, got " ++ str_int age)))
  /\ (0 <= age -> misses age groups = true ->
        classify_age_group_in groups age
        = Raise (ValueError ("Could not classify age " ++ str_int age)))
  /\ (forall e, classify_age_group_in groups age = Raise e ->
        InvalidAge age e /\ (age < 0 \/ misses age groups = true))
  /\ (forall g, classify_age_group_in [] age <> Return g).
Proof.
  unfold classify_age_group_in. repeat apply conj.
  - intros H. destruct (Z.ltb_spec age 0) as [Hlt|Hge]; [reflexivity | lia].
  - intros H Hm. destruct (Z.ltb_spec age 0) as [Hlt|Hge]; [lia|].
    apply first_covering_none in Hm. now rewrite Hm.
  - intros e. destruct (Z.ltb_spec age 0) as [Hlt|Hge].
    + intros [= <-]. split; [left; reflexivity | left; assumption].
    + destruct (first_covering groups age) eqn:E; [discriminate|].
      intros [= <-]. split; [right; reflexivity|].
      right. now apply first_covering_none.
  - intros g. cbn [first_covering]. destruct (age <? 0); discriminate.
Qed.

Lemma X2_witness :
  classify_age_group_in [("any", (-10, 10))] (-5)
  = Raise (ValueError "Age must be non-negative, got -5")
  /\ classify_age_group_in [("any", (-10, 10))] 20
     = Raise (ValueError "Could not classify age 20")
  /\ misses 20 [("any", (-10, 10))] = true.
Proof.
  pose proof (X2_classify_errors_any_table [("any", (-10, 10))] (-5)) as (Hneg & _).
  pose proof (X2_classify_errors_any_table [("any", (-10, 10))] 20)
    as (_ & Hmiss & Herr & _).
  split; [apply Hneg; lia|].
  assert (H20 : classify_age_group_in [("any", (-10, 10))] 20
                = Raise (ValueError "Could not classify age 20"))
    by (apply Hmiss; [lia | reflexivity]).
  split; [exact H20|].
  destruct (proj2 (Herr _ H20)) as [H|H]; [lia | exact H].
Defined.

(* ------------------------------------------------------------------ *)
(** ** The classifier over the module's table *)

Ltac split_leb_in H :=
  repeat match type of H with
    | context [Z.leb ?a ?b] => destruct (Z.leb_spec a b)
    | context [Z.ltb ?a ?b] => destruct (Z.ltb_spec a b)
    end.

Lemma classify_age_group_returns (a : Z) (g : string) :
  classify_age_group a = Return g -> 0 <= a <= 150 /\ In g AgeGroup.
Proof.
  rewrite classify_age_group_cases. intros H.
  split_leb_in H; try discriminate H; injection H as <-;
    (split; [lia | simpl; tauto]).
Qed.

Lemma classify_age_group_raises (a : Z) (e : exn) :
  classify_age_group a = Raise e -> ~ 0 <= a <= 150 /\ InvalidAge a e.
Proof.
  rewrite classify_age_group_cases. intros H.
  split_leb_in H; try discriminate H; injection H as <-;
    (split; [lia | unfold InvalidAge; tauto]).
Qed.

(** X3. Classification is monotone: of two ages that are both classified,
    the greater one never falls into an earlier group of [AGE_GROUPS]. *)
Theorem X3_classification_is_monotone (a b : Z) (ga gb : string) :
  a <= b ->
  classify_age_group a = Return ga ->
  classify_age_group b = Return gb ->
  exists i j,
    list_index ga (dict_keys AGE_GROUPS) = Some i
    /\ list_index gb (dict_keys AGE_GROUPS) = Some j
    /\ (i <= j)%nat.
Proof.
  rewrite !classify_age_group_cases. intros Hab Ha Hb.
  split_leb_in Ha; try discriminate Ha; injection Ha as <-;
    split_leb_in Hb; try discriminate Hb; injection Hb as <-;
    try lia; do 2 eexists;
    (split; [reflexivity|]); (split; [reflexivity|]); lia.
Qed.

Lemma X3_witness :
  12 <= 13
  /\ exists i j,
       list_index "child" (dict_keys AGE_GROUPS) = Some i
       /\ list_index "teen" (dict_keys AGE_GROUPS) = Some j
       /\ (i <= j)%nat.
Proof.
  split; [lia|].
  apply (X3_classification_is_monotone 12 13 "child" "teen");
    [lia | reflexivity | reflexivity].
Defined.

(* ------------------------------------------------------------------ *)
(** ** Outcomes of the engine *)

Lemma FaceShape_lookup (k : string) :
  In k FaceShape <-> exists base, dict_lookup _FACE_SHAPE_FRAMES k = Some base.
Proof. rewrite <- FaceShape_keys. apply dict_lookup_keys. Qed.

(** X4. [recommend_glasses] returns a recommendation exactly when the
    normalised face shape is one of the seven keys of the frame table and
    the age lies in [0,150]. *)
Theorem X4_recommend_glasses_returns_iff (s : string) (a : Z) :
  (exists r, recommend_glasses s a = Return r)
  <-> In (normalize s) FaceShape /\ 0 <= a <= 150.
Proof.
  split.
  - intros [r Hr].
    destruct (recommend_glasses_in_inv _ _ _ _ _ _ _ Hr) as (base & g & m & Hb & Hg & _).
    split; [apply FaceShape_lookup; eauto|].
    exact (proj1 (classify_age_group_returns a g Hg)).
  - intros [Hs Ha].
    destruct (recommend_glasses_lookups s a Hs Ha) as (base & g & m & Hb & Hg & _ & Hm).
    eexists. apply (recommend_glasses_ok s a base g m Hb Hg Hm).
Qed.

(** X5. When [recommend_glasses] raises, either the face shape is unknown
    and the error is the unknown-face-shape [ValueError], or the face shape
    is known, the age is outside [0,150] and the error is the very error
    that [classify_age_group] raises for that age. It never raises a
    [KeyError]: the look-ups in the module's tables cannot miss. *)
Theorem X5_recommend_glasses_errors (s : string) (a : Z) (e : exn) :
  recommend_glasses s a = Raise e ->
  ((~ In (normalize s) FaceShape /\ UnknownFaceShape (normalize s) FaceShape e)
   \/ (In (normalize s) FaceShape /\ ~ 0 <= a <= 150
       /\ classify_age_group a = Raise e /\ InvalidAge a e))
  /\ (exists msg, e = ValueError msg)
  /\ (forall k, e <> KeyError k).
Proof.
  intros H.
  assert (Hcases :
    (~ In (normalize s) FaceShape /\ UnknownFaceShape (normalize s) FaceShape e)
    \/ (In (normalize s) FaceShape /\ ~ 0 <= a <= 150
        /\ classify_age_group a = Raise e /\ InvalidAge a e)).
  { destruct (dict_lookup _FACE_SHAPE_FRAMES (normalize s)) as [base|] eqn:Hb.
    - right. assert (Hs : In (normalize s) FaceShape)
        by (apply FaceShape_lookup; eauto).
      split; [exact Hs|].
      destruct (classify_age_group a) as [g|e'] eqn:Hg.
      + destruct (classify_age_group_returns a g Hg) as [Ha _].
        destruct (recommend_glasses_lookups s a Hs Ha) as (b' & g' & m & Hb' & Hg' & _ & Hm).
        rewrite (recommend_glasses_ok s a b' g' m Hb' Hg' Hm) in H. discriminate H.
      + unfold recommend_glasses in H.
        rewrite (recommend_glasses_in_bad_age _ _ _ _ s a base e' Hb Hg) in H.
        injection H as <-.
        destruct (classify_age_group_raises a e' Hg). tauto.
    - left. assert (Hs : ~ In (normalize s) FaceShape)
        by (rewrite FaceShape_lookup; intros [base Hbase]; congruence).
      split; [exact Hs|].
      rewrite (recommend_glasses_unknown s a Hs) in H. injection H as <-.
      reflexivity. }
  split; [exact Hcases|].
  assert (Hmsg : exists msg, e = ValueError msg).
  { destruct Hcases as [[_ Hu]|(_ & _ & _ & [Hi|Hi])]; rewrite ?Hu, ?Hi; eauto. }
  split; [exact Hmsg|].
  intros k Hk. destruct Hmsg as [msg ->]. discriminate Hk.
Qed.

Lemma X5_witness :
  recommend_glasses "oval" 200 = Raise (ValueError "Could not classify age 200")
  /\ classify_age_group 200 = Raise (ValueError "Could not classify age 200")
  /\ In (normalize "oval") FaceShape.
Proof.
  assert (H : recommend_glasses "oval" 200
              = Raise (ValueError "Could not classify age 200")) by reflexivity.
  split; [exact H|].
  destruct (proj1 (X5_recommend_glasses_errors "oval" 200 _ H))
    as [[Hno _]|(Hs & _ & Hc & _)].
  - elim Hno. vm_compute. tauto.
  - split; [exact Hc | exact Hs].
Defined.

Lemma dict_lookup_as_dicts (modifiers : dict Modifiers) (k : string) :
  dict_lookup (as_dicts modifiers) k
  = match dict_lookup modifiers k with
    | Some m => Some (as_dict m)
    | None => None
    end.
Proof.
  induction modifiers as [|[k' m] modifiers IH]; cbn [as_dicts map dict_lookup fst snd].
  - reflexivity.
  - destruct (String.eqb k k'); [reflexivity | exact IH].
Qed.

(** On entries that hold all three keys the engine with the subscripts
    written out is the engine over records. *)
Lemma recommend_glasses_over_complete
  (age_groups : dict (Z * Z)) (face_shape_frames : dict (list string))
  (age_group_modifiers : dict Modifiers)
  (age_lens_suggestions : dict (list string)) (s : string) (a : Z) :
  recommend_glasses_over age_groups face_shape_frames
    (as_dicts age_group_modifiers) age_lens_suggestions s a
  = recommend_glasses_in age_groups face_shape_frames age_group_modifiers
      age_lens_suggestions s a.
Proof.
  unfold recommend_glasses_over, recommend_glasses_in, dict_getitem.
  destruct (negb (dict_contains face_shape_frames (lower (strip s)))); [reflexivity|].
  destruct (classify_age_group_in age_groups a) as [g|e]; cbn [bind]; [|reflexivity].
  destruct (dict_lookup face_shape_frames (lower (strip s))) as [base|];
    cbn [bind]; [|reflexivity].
  rewrite dict_lookup_as_dicts.
  destruct (dict_lookup age_group_modifiers g) as [m|]; reflexivity.
Qed.

(** X6. Over arbitrary tables, whose modifier entries may lack keys, the
    engine raises [KeyError k] exactly when the face shape passed the
    membership test, the classifier returned a group, and either the
    modifier table has no entry for that group ([k] is the group) or the
    entry lacks "avoid" ([k] is "avoid"), or else lacks "prefer", or else
    lacks "fit_notes"; the frame look-up and a missing lens entry never
    raise it. On entries with all three keys this engine is
    [recommend_glasses_in]. *)
Theorem X6_key_errors_of_the_engine
  (age_groups : dict (Z * Z)) (face_shape_frames : dict (list string))
  (age_group_modifiers : dict ModifierDict)
  (age_lens_suggestions : dict (list string)) (s : string) (a : Z) (k : string) :
  (recommend_glasses_over age_groups face_shape_frames age_group_modifiers
     age_lens_suggestions s a = Raise (KeyError k)
   <-> dict_contains face_shape_frames (normalize s) = true
       /\ exists g,
            classify_age_group_in age_groups a = Return g
            /\ match dict_lookup age_group_modifiers g with
               | None => k = g
               | Some m =>
                   match item_avoid m, item_prefer m, item_fit_notes m with
                   | None, _, _ => k = "avoid"
                   | Some _, None, _ => k = "prefer"
                   | Some _, Some _, None => k = "fit_notes"
                   | Some _, Some _, Some _ => False
                   end
               end)
  /\ (forall modifiers : dict Modifiers,
        recommend_glasses_over age_groups face_shape_frames
          (as_dicts modifiers) age_lens_suggestions s a
        = recommend_glasses_in age_groups face_shape_frames modifiers
            age_lens_suggestions s a).
Proof.
  split; [|intros modifiers; apply recommend_glasses_over_complete].
  unfold recommend_glasses_over, dict_contains, dict_getitem. fold (normalize s).
  destruct (dict_lookup face_shape_frames (normalize s)) as [base|]; cbn [negb bind].
  - destruct (classify_age_group_in age_groups a) as [g|e] eqn:Hg; cbn [bind].
    + destruct (dict_lookup age_group_modifiers g) as [m|] eqn:Hm; cbn [bind].
      * destruct (item_avoid m) as [av|] eqn:Hav; cbn [subscript bind];
          [destruct (item_prefer m) as [pr|] eqn:Hpr; cbn [subscript bind];
           [destruct (item_fit_notes m) as [fn|] eqn:Hfn; cbn [subscript bind]|]|].
        -- split; [discriminate|]. intros (_ & g' & [= <-] & Hk).
           rewrite Hm, Hav, Hpr, Hfn in Hk. contradiction.
        -- split.
           ++ intros [= <-]. split; [reflexivity|]. exists g.
              now rewrite Hm, Hav, Hpr, Hfn.
           ++ intros (_ & g' & [= <-] & Hk).
              rewrite Hm, Hav, Hpr, Hfn in Hk. now subst k.
        -- split.
           ++ intros [= <-]. split; [reflexivity|]. exists g.
              now rewrite Hm, Hav, Hpr.
           ++ intros (_ & g' & [= <-] & Hk).
              rewrite Hm, Hav, Hpr in Hk. now subst k.
        -- split.
           ++ intros [= <-]. split; [reflexivity|]. exists g.
              now rewrite Hm, Hav.
           ++ intros (_ & g' & [= <-] & Hk).
              rewrite Hm, Hav in Hk. now subst k.
      * split.
        -- intros [= <-]. split; [reflexivity|]. exists g. now rewrite Hm.
        -- intros (_ & g' & [= <-] & Hk). rewrite Hm in Hk. now subst k.
    + split; [|intros (_ & g' & Hk & _); discriminate Hk].
      intros [= ->]. unfold classify_age_group_in in Hg.
      destruct (a <? 0); [discriminate Hg|].
      destruct (first_covering age_groups a); discriminate Hg.
  - split; [discriminate | intros (Hf & _); discriminate Hf].
Qed.

Lemma X6_witness :
  recommend_glasses_over AGE_GROUPS _FACE_SHAPE_FRAMES
    [("adult", {| item_prefer := Some ["classic styles"];
                  item_avoid := None;
                  item_fit_notes := None |})]
    _AGE_LENS_SUGGESTIONS "oval" 45 = Raise (KeyError "avoid")
  /\ recommend_glasses_over AGE_GROUPS _FACE_SHAPE_FRAMES
       [("adult", {| item_prefer := Some ["classic styles"];
                     item_avoid := None;
                     item_fit_notes := None |})]
       _AGE_LENS_SUGGESTIONS "oval" 70 = Raise (KeyError "senior").
Proof.
  split.
  - apply (proj1 (X6_key_errors_of_the_engine AGE_GROUPS _FACE_SHAPE_FRAMES
                    [("adult", {| item_prefer := Some ["classic styles"];
                                  item_avoid := None;
                                  item_fit_notes := None |})]
                    _AGE_LENS_SUGGESTIONS "oval" 45 "avoid")).
    split; [reflexivity|]. exists "adult". split; reflexivity.
  - apply (proj1 (X6_key_errors_of_the_engine AGE_GROUPS _FACE_SHAPE_FRAMES
                    [("adult", {| item_prefer := Some ["classic styles"];
                                  item_avoid := None;
                                  item_fit_notes := None |})]
                    _AGE_LENS_SUGGESTIONS "oval" 70 "senior")).
    split; [reflexivity|]. exists "senior". split; reflexivity.
Defined.

(* ------------------------------------------------------------------ *)
(** ** What the filter does to the frame lists *)

Lemma filter_fixes {A : Type} (p : A -> bool) (xs : list A) :
  filter p xs = xs <-> forall x, In x xs -> p x = true.
Proof.
  split.
  - intros H x Hx. rewrite <- H in Hx. now apply filter_In in Hx.
  - intros H. induction xs as [|x xs IH]; [reflexivity|]. cbn [filter].
    rewrite (H x) by (left; reflexivity).
    rewrite IH by (intros y Hy; apply H; right; exact Hy). reflexivity.
Qed.

(** X7. With the module's tables only a child loses frames: from the age
    of 13 on the recommended frames are the base list of the face shape
    unchanged, and up to the age of 12 they are the base list without
    "rimless". *)
Theorem X7_only_children_lose_frames (s : string) (a : Z) (r : GlassRecommendation) :
  recommend_glasses s a = Return r ->
  exists base,
    dict_lookup _FACE_SHAPE_FRAMES (normalize s) = Some base
    /\ (13 <= a -> recommended_frames r = base)
    /\ (a <= 12 -> recommended_frames r = strike "rimless" base).
Proof.
  intros H.
  destruct (recommend_glasses_in_inv _ _ _ _ _ _ _ H) as (base & g & m & Hb & Hg & Hm).
  rewrite (recommend_glasses_ok s a base g m Hb Hg Hm) in H. injection H as <-.
  cbn [recommended_frames]. exists base. split; [exact Hb|].
  assert (Hs : In (normalize s) (dict_keys _FACE_SHAPE_FRAMES))
    by (apply dict_lookup_keys; eauto).
  revert Hb Hs. generalize (normalize s). intros shape Hb Hs.
  change (classify_age_group a = Return g) in Hg.
  rewrite classify_age_group_cases in Hg.
  split_leb_in Hg; try discriminate Hg; injection Hg as <-;
    vm_compute in Hm; injection Hm as <-;
    cbn in Hs; repeat (destruct Hs as [<-|Hs]); try contradiction;
    vm_compute in Hb; injection Hb as <-;
    (split; intros; try lia; vm_compute; reflexivity).
Qed.

Lemma X7_witness :
  exists r,
    recommend_glasses "heart" 12 = Return r
    /\ recommended_frames r
       = strike "rimless" ["aviator"; "round"; "rimless"; "light-colored frames"].
Proof.
  destruct (recommend_glasses "heart" 12) as [r|e] eqn:Hr; [|discriminate Hr].
  exists r. split; [reflexivity|].
  destruct (X7_only_children_lose_frames "heart" 12 r Hr) as (base & Hb & _ & Hchild).
  vm_compute in Hb. injection Hb as <-. apply Hchild. lia.
Defined.

(** X8. Over arbitrary tables a returned recommendation never lists a
    frame both as recommended and as to avoid; its recommended frames are
    a subsequence of the base list of the face shape, no longer than it,
    free of duplicates when the base list is, and equal to the base list
    exactly when no base frame is on the avoid list. *)
Theorem X8_never_recommends_avoided
  (age_groups : dict (Z * Z)) (face_shape_frames : dict (list string))
  (age_group_modifiers : dict Modifiers)
  (age_lens_suggestions : dict (list string))
  (s : string) (a : Z) (r : GlassRecommendation) :
  recommend_glasses_in age_groups face_shape_frames age_group_modifiers
    age_lens_suggestions s a = Return r ->
  (forall f, In f (recommended_frames r) -> ~ In f (frames_to_avoid r))
  /\ exists base,
       dict_lookup face_shape_frames (normalize s) = Some base
       /\ subseq (recommended_frames r) base
       /\ (List.length (recommended_frames r) <= List.length base)%nat
       /\ (NoDup base -> NoDup (recommended_frames r))
       /\ (recommended_frames r = base
           <-> forall f, In f base -> ~ In f (frames_to_avoid r)).
Proof.
  intros H.
  destruct (recommend_glasses_in_inv _ _ _ _ _ _ _ H) as (base & g & m & Hb & Hg & Hm).
  rewrite (recommend_glasses_in_ok _ _ _ age_lens_suggestions _ _ _ _ _ Hb Hg Hm) in H.
  injection H as <-. cbn [recommended_frames frames_to_avoid].
  assert (Hnot : forall f, negb (list_contains (avoid m) f) = true
                           <-> ~ In f (avoid m)).
  { intros f. now rewrite negb_true_iff, <- not_true_iff_false, list_contains_In. }
  split.
  - intros f Hf. apply filter_In in Hf as [_ Hf]. now apply Hnot.
  - exists base. split; [exact Hb|]. split; [apply filter_subseq|].
    split; [apply filter_length_le|]. split; [apply NoDup_filter|].
    rewrite filter_fixes. split; intros Hall f Hf; apply Hnot, Hall, Hf.
Qed.

Lemma X8_witness :
  exists r,
    recommend_glasses_in AGE_GROUPS _FACE_SHAPE_FRAMES _AGE_GROUP_MODIFIERS
      _AGE_LENS_SUGGESTIONS "square" 10 = Return r
    /\ ~ In "rimless" (recommended_frames r)
    /\ In "rimless" (frames_to_avoid r).
Proof.
  destruct (recommend_glasses_in AGE_GROUPS _FACE_SHAPE_FRAMES _AGE_GROUP_MODIFIERS
              _AGE_LENS_SUGGESTIONS "square" 10) as [r|e] eqn:Hr;
    [|discriminate Hr].
  exists r. split; [reflexivity|].
  pose proof (proj1 (X8_never_recommends_avoided _ _ _ _ _ _ _ Hr)) as Hnever.
  assert (Hin : In "rimless" (frames_to_avoid r))
    by (vm_compute in Hr; injection Hr as <-; left; reflexivity).
  split; [|exact Hin].
  intros Hrec. exact (Hnever _ Hrec Hin).
Defined.

(* ------------------------------------------------------------------ *)
(** ** A recommendation as input of the next call *)

(** X9. A returned recommendation is well formed and reproduces itself:
    its face shape is one of the seven keys, its age is the age passed in
    and lies in [0,150], its age group is the classification of that age,
    and calling [recommend_glasses] on its own face shape and age returns
    the same recommendation. *)
Theorem X9_result_reproduces_itself (s : string) (a : Z) (r : GlassRecommendation) :
  recommend_glasses s a = Return r ->
  In (face_shape r) FaceShape
  /\ age r = a
  /\ 0 <= age r <= 150
  /\ classify_age_group (age r) = Return (age_group r)
  /\ In (age_group r) AgeGroup
  /\ recommend_glasses (face_shape r) (age r) = Return r.
Proof.
  intros H.
  destruct (recommend_glasses_in_inv _ _ _ _ _ _ _ H) as (base & g & m & Hb & Hg & Hm).
  pose proof (recommend_glasses_ok s a base g m Hb Hg Hm) as Hok.
  rewrite Hok in H. injection H as <-. cbn [face_shape age age_group].
  destruct (classify_age_group_returns a g Hg) as [Ha Hin].
  split; [apply FaceShape_lookup; eauto|].
  split; [reflexivity|]. split; [exact Ha|]. split; [exact Hg|].
  split; [exact Hin|].
  rewrite <- Hok. apply recommend_glasses_normalize.
Qed.

Lemma X9_witness :
  exists r,
    recommend_glasses " OBLONG " 61 = Return r
    /\ face_shape r = "oblong"
    /\ recommend_glasses "oblong" 61 = Return r.
Proof.
  destruct (recommend_glasses " OBLONG " 61) as [r|e] eqn:Hr; [|discriminate Hr].
  exists r. split; [reflexivity|].
  destruct (X9_result_reproduces_itself " OBLONG " 61 r Hr)
    as (_ & Hage & _ & _ & _ & Hagain).
  assert (Hshape : face_shape r = "oblong")
    by (vm_compute in Hr; injection Hr as <-; reflexivity).
  split; [exact Hshape|]. now rewrite <- Hshape, <- Hage.
Defined.

(** X10. Over arbitrary tables the age enters a recommendation only
    through its age group and the [age] field: a second age that the
    classifier puts in the same group yields the same recommendation with
    the [age] field replaced. *)
Theorem X10_age_matters_only_through_group
  (age_groups : dict (Z * Z)) (face_shape_frames : dict (list string))
  (age_group_modifiers : dict Modifiers)
  (age_lens_suggestions : dict (list string))
  (s : string) (a1 a2 : Z) (r1 : GlassRecommendation) :
  recommend_glasses_in age_groups face_shape_frames age_group_modifiers
    age_lens_suggestions s a1 = Return r1 ->
  classify_age_group_in age_groups a2 = classify_age_group_in age_groups a1 ->
  recommend_glasses_in age_groups face_shape_frames age_group_modifiers
    age_lens_suggestions s a2 = Return (with_age r1 a2).
Proof.
  intros H Hsame.
  destruct (recommend_glasses_in_inv _ _ _ _ _ _ _ H) as (base & g & m & Hb & Hg & Hm).
  rewrite (recommend_glasses_in_ok _ _ _ age_lens_suggestions _ _ _ _ _ Hb Hg Hm) in H.
  injection H as <-. rewrite <- Hsame in Hg.
  now rewrite (recommend_glasses_in_ok _ _ _ age_lens_suggestions _ _ _ _ _ Hb Hg Hm).
Qed.

Lemma X10_witness :
  exists r,
    recommend_glasses_in AGE_GROUPS _FACE_SHAPE_FRAMES _AGE_GROUP_MODIFIERS
      _AGE_LENS_SUGGESTIONS "oval" 36 = Return r
    /\ recommend_glasses_in AGE_GROUPS _FACE_SHAPE_FRAMES _AGE_GROUP_MODIFIERS
         _AGE_LENS_SUGGESTIONS "oval" 59 = Return (with_age r 59).
Proof.
  destruct (recommend_glasses_in AGE_GROUPS _FACE_SHAPE_FRAMES _AGE_GROUP_MODIFIERS
              _AGE_LENS_SUGGESTIONS "oval" 36) as [r|e] eqn:Hr;
    [|discriminate Hr].
  exists r. split; [reflexivity|].
  apply (X10_age_matters_only_through_group _ _ _ _ "oval" 36 59 r Hr).
  reflexivity.
Defined.

(* ------------------------------------------------------------------ *)
(** ** Blank input *)

Lemma strip_all_space (s : string) : all_space s = true -> strip s = "".
Proof.
  unfold strip. induction s as [|c s IH]; cbn [all_space lstrip]; [reflexivity|].
  destruct (isspace c); [exact IH | discriminate].
Qed.

Lemma all_space_strip (s : string) : strip s = "" -> all_space s = true.
Proof.
  unfold strip. induction s as [|c s IH]; cbn [all_space lstrip]; [reflexivity|].
  destruct (isspace c) eqn:Hc; [exact IH|].
  cbn [rstrip]. rewrite Hc. discriminate.
Qed.

Lemma string_length_append (s t : string) :
  String.length (s ++ t) = (String.length s + String.length t)%nat.
Proof. induction s; cbn [append String.length]; [reflexivity | now rewrite IHs]. Qed.

(** X11. An empty face-shape string, or one of white space only, is
    rejected at every age as the unknown face shape [''], and these are
    the only inputs whose rejection message shows the empty string. *)
Theorem X11_blank_face_shape_rejected (s : string) (a : Z) :
  all_space s = true
  <-> recommend_glasses s a
      = Raise (ValueError
          ("Unknown face shape ''. Supported shapes: "
           ++ "['oval', 'round', 'square', 'heart', 'oblong', 'diamond', 'triangle']")).
Proof.
  split.
  - intros H.
    assert (Hn : normalize s = "") by (unfold normalize; now rewrite strip_all_space).
    rewrite <- recommend_glasses_normalize, Hn. reflexivity.
  - intros H. apply all_space_strip.
    destruct (normalize s) as [|c n] eqn:Hn.
    + unfold normalize in Hn. destruct (strip s); [reflexivity | discriminate Hn].
    + exfalso.
      destruct (dict_lookup _FACE_SHAPE_FRAMES (normalize s)) as [base|] eqn:Hb.
      * destruct (classify_age_group a) as [g|e] eqn:Hg.
        -- assert (Hs : In (normalize s) FaceShape) by (apply FaceShape_lookup; eauto).
           destruct (classify_age_group_returns a g Hg) as [Ha _].
           destruct (recommend_glasses_lookups s a Hs Ha)
             as (b' & g' & m & Hb' & Hg' & _ & Hm).
           rewrite (recommend_glasses_ok s a b' g' m Hb' Hg' Hm) in H. discriminate H.
        -- unfold recommend_glasses in H.
           rewrite (recommend_glasses_in_bad_age _ _ _ _ s a base e Hb Hg) in H.
           destruct (classify_age_group_raises a e Hg) as [_ [-> | ->]];
             discriminate H.
      * assert (Hs : ~ In (normalize s) FaceShape)
          by (rewrite FaceShape_lookup; intros [base Hbase]; congruence).
        rewrite (recommend_glasses_unknown s a Hs), Hn in H.
        injection H as _ Htl. apply (f_equal String.length) in Htl.
        rewrite string_length_append in Htl.
        rewrite Nat.add_comm in Htl. set (k := String.length n) in Htl.
        vm_compute in Htl. lia.
Qed.

(* ------------------------------------------------------------------ *)
(** ** The rendered text of an engine result *)

(** X12. The text rendered from a recommendation that [recommend_glasses]
    returned splits at its line breaks into exactly the assembled lines:
    six lines for the ages 18 to 59, whose groups avoid nothing, seven
    lines otherwise; the lenses line is always there; the first line shows
    the normalised face shape, the second the age and its group, the last
    the fit notes. *)
Theorem X12_summary_of_engine_result (s : string) (a : Z) (r : GlassRecommendation) :
  recommend_glasses s a = Return r ->
  split_lines (summary r) = summary_lines r
  /\ List.length (split_lines (summary r))
     = (if (18 <=? a) && (a <=? 59) then 6%nat else 7%nat)
  /\ has_line LENSES_LABEL (summary r) = true
  /\ (has_line AVOID_LABEL (summary r) = true <-> ~ 18 <= a <= 59)
  /\ nth_error (split_lines (summary r)) 0 = Some ("Face shape  : " ++ normalize s)
  /\ nth_error (split_lines (summary r)) 1
     = Some ("Age         : " ++ str_int a ++ " (" ++ age_group r ++ ")")
  /\ last (split_lines (summary r)) "" = "Fit notes   : " ++ fit_notes r.
Proof.
  intros H.
  pose proof (split_lines_summary r (recommend_glasses_one_line s a r H)) as Hsplit.
  unfold has_line. rewrite Hsplit. split; [reflexivity|].
  destruct (recommend_glasses_in_inv _ _ _ _ _ _ _ H) as (base & g & m & Hb & Hg & Hm).
  rewrite (recommend_glasses_ok s a base g m Hb Hg Hm) in H. injection H as <-.
  change (classify_age_group a = Return g) in Hg.
  rewrite classify_age_group_cases in Hg.
  unfold summary_lines, list_append, AVOID_LABEL, LENSES_LABEL.
  cbn [frames_to_avoid lens_suggestions face_shape age age_group fit_notes
       recommended_frames preferred_features].
  split_leb_in Hg; try discriminate Hg; injection Hg as <-;
    vm_compute in Hm; injection Hm as <-;
    cbn [avoid dict_get dict_lookup _AGE_LENS_SUGGESTIONS String.eqb Ascii.eqb
         Bool.eqb app List.length nth_error last];
    (split; [split_leb; try lia; reflexivity|]);
    (split; [cbn; rewrite ?orb_true_r; reflexivity|]);
    (split; [cbn; rewrite ?orb_true_r; split; intros; try discriminate;
             try reflexivity; lia|]);
    repeat split.
Qed.

Lemma X12_witness :
  exists r,
    recommend_glasses "Round" 40 = Return r
    /\ List.length (split_lines (summary r)) = 6%nat
    /\ nth_error (split_lines (summary r)) 0 = Some "Face shape  : round"
    /\ nth_error (split_lines (summary r)) 1 = Some "Age         : 40 (adult)".
Proof.
  destruct (recommend_glasses "Round" 40) as [r|e] eqn:Hr; [|discriminate Hr].
  exists r.
  destruct (X12_summary_of_engine_result "Round" 40 r Hr)
    as (_ & Hlen & _ & _ & H0 & H1 & _).
  split; [reflexivity|]. split; [exact Hlen|]. split; [exact H0|].
  rewrite H1. vm_compute in Hr. injection Hr as <-. reflexivity.
Defined.

(* ------------------------------------------------------------------ *)
(** ** Reading a rendered text back *)

Lemma has_space_uint (d : Decimal.uint) :
  has_char " " (NilEmpty.string_of_uint d) = false.
Proof. induction d; simpl; try reflexivity; exact IHd. Qed.

Lemma has_space_str_int (n : Z) : has_char " " (str_int n) = false.
Proof.
  unfold str_int.
  destruct (Z.to_int n) as [d|d]; cbn [NilZero.string_of_int];
    destruct d; try reflexivity;
    apply (has_space_uint (Decimal.D0 d)) || apply (has_space_uint (Decimal.D1 d))
    || apply (has_space_uint (Decimal.D2 d)) || apply (has_space_uint (Decimal.D3 d))
    || apply (has_space_uint (Decimal.D4 d)) || apply (has_space_uint (Decimal.D5 d))
    || apply (has_space_uint (Decimal.D6 d)) || apply (has_space_uint (Decimal.D7 d))
    || apply (has_space_uint (Decimal.D8 d)) || apply (has_space_uint (Decimal.D9 d)).
Qed.

(** [int(str(n)) == n]: the decimal rendering of an [int] determines it. *)
Lemma str_int_inj (m n : Z) : str_int m = str_int n -> m = n.
Proof.
  unfold str_int. intros H. apply to_int_inj.
  assert (Hnil : forall z, Z.to_int z <> Decimal.Pos Decimal.Nil
                           /\ Z.to_int z <> Decimal.Neg Decimal.Nil).
  { intros [|p|p]; cbn [Z.to_int]; split; try discriminate;
      intros [= Hp]; exact (Unsigned.to_uint_nonnil p Hp). }
  pose proof (NilZero.isi (Z.to_int m) (proj1 (Hnil m)) (proj2 (Hnil m))) as Hm.
  pose proof (NilZero.isi (Z.to_int n) (proj1 (Hnil n)) (proj2 (Hnil n))) as Hn.
  rewrite H in Hm. congruence.
Qed.

(** Two texts that agree, each cut at its first blank, agree on both
    sides of the cut. *)
Lemma cut_at_first_space (x y u v : string) :
  has_char " " x = false -> has_char " " y = false ->
  x ++ String " " u = y ++ String " " v -> x = y /\ u = v.
Proof.
  revert y. induction x as [|c x IH]; intros [|d y]; cbn [append has_char].
  - intros _ _ [= ->]. split; reflexivity.
  - intros _ Hy [= <- _]. rewrite Ascii.eqb_refl in Hy. discriminate Hy.
  - intros Hx _ [= -> _]. rewrite Ascii.eqb_refl in Hx. discriminate Hx.
  - intros Hx Hy [= <- Htl].
    apply orb_false_iff in Hx as [_ Hx]. apply orb_false_iff in Hy as [_ Hy].
    destruct (IH y Hx Hy Htl) as [-> ->]. split; reflexivity.
Qed.

Lemma append_cancel_r (x y t : string) : x ++ t = y ++ t -> x = y.
Proof.
  revert y. induction x as [|c x IH]; intros [|d y] H; cbn [append] in H.
  - reflexivity.
  - apply (f_equal String.length) in H. cbn [String.length] in H.
    rewrite string_length_append in H. lia.
  - apply (f_equal String.length) in H. cbn [String.length] in H.
    rewrite string_length_append in H. lia.
  - injection H as -> H. now rewrite (IH y H).
Qed.

Lemma age_line_inj (a1 a2 : Z) (g1 g2 : string) :
  str_int a1 ++ " (" ++ g1 ++ ")" = str_int a2 ++ " (" ++ g2 ++ ")" ->
  a1 = a2 /\ g1 = g2.
Proof.
  cbn [append]. intros H.
  apply cut_at_first_space in H as [Ha Hg]; try apply has_space_str_int.
  injection Hg as Hg. split; [exact (str_int_inj _ _ Ha)|].
  exact (append_cancel_r _ _ _ Hg).
Qed.

(** X13. The rendered text can be read back: two recommendations whose
    fields hold no line break and whose texts are equal have the same
    face shape, age, age group and fit notes, and agree on whether the
    avoid list and the lens list are empty. *)
Theorem X13_summary_determines_fields (r1 r2 : GlassRecommendation) :
  one_line_fields r1 = true -> one_line_fields r2 = true ->
  summary r1 = summary r2 ->
  face_shape r1 = face_shape r2
  /\ age r1 = age r2
  /\ age_group r1 = age_group r2
  /\ fit_notes r1 = fit_notes r2
  /\ (frames_to_avoid r1 = [] <-> frames_to_avoid r2 = [])
  /\ (lens_suggestions r1 = [] <-> lens_suggestions r2 = []).
Proof.
  intros H1 H2 H. apply (f_equal split_lines) in H.
  rewrite (split_lines_summary r1 H1), (split_lines_summary r2 H2) in H.
  unfold summary_lines, list_append in H.
  destruct (frames_to_avoid r1) as [|f1 fs1], (lens_suggestions r1) as [|l1 ls1],
    (frames_to_avoid r2) as [|f2 fs2], (lens_suggestions r2) as [|l2 ls2];
    cbn [app append] in H; try discriminate H;
    injection H; intros; try discriminate;
    match goal with
    | Hage : str_int _ ++ _ = str_int _ ++ _ |- _ =>
        destruct (age_line_inj _ _ _ _ Hage) as [Ha Hg]
    end;
    repeat split; intros; try assumption; try reflexivity; discriminate.
Qed.

Lemma X13_witness :
  let r1 := {| face_shape := "oval"; age := 30; age_group := "young_adult";
               recommended_frames := ["round, oval"];
               preferred_features := ["large fit"];
               frames_to_avoid := []; fit_notes := "Standard fit.";
               lens_suggestions := ["single-vision"] |} in
  let r2 := {| face_shape := "oval"; age := 30; age_group := "young_adult";
               recommended_frames := ["round"; "oval"];
               preferred_features := ["large fit"];
               frames_to_avoid := []; fit_notes := "Standard fit.";
               lens_suggestions := ["single-vision"] |} in
  summary r1 = summary r2
  /\ recommended_frames r1 <> recommended_frames r2
  /\ age r1 = age r2
  /\ (lens_suggestions r1 = [] <-> lens_suggestions r2 = []).
Proof.
  intros r1 r2.
  assert (H1 : one_line_fields r1 = true) by reflexivity.
  assert (H2 : one_line_fields r2 = true) by reflexivity.
  assert (Hsum : summary r1 = summary r2) by reflexivity.
  destruct (X13_summary_determines_fields r1 r2 H1 H2 Hsum)
    as (_ & Hage & _ & _ & _ & Hlens).
  split; [exact Hsum|]. split; [discriminate|]. split; [exact Hage | exact Hlens].
Defined.

(* ------------------------------------------------------------------ *)
(** ** The command line *)

Lemma recommend_glasses_return_inv (s : string) (a : Z) (r : GlassRecommendation) :
  recommend_glasses s a = Return r ->
  In (normalize s) FaceShape /\ 0 <= a <= 150.
Proof.
  intros H.
  destruct (recommend_glasses_in_inv _ _ _ _ _ _ _ H) as (base & g & m & Hb & Hg & _).
  split; [apply FaceShape_lookup; eauto|].
  exact (proj1 (classify_age_group_returns a g Hg)).
Qed.

Lemma recommend_glasses_raise_inv (s : string) (a : Z) (e : exn) :
  recommend_glasses s a = Raise e ->
  exists msg,
    e = ValueError msg
    /\ (UnknownFaceShape (normalize s) FaceShape e \/ InvalidAge a e).
Proof.
  intros H.
  destruct (dict_lookup _FACE_SHAPE_FRAMES (normalize s)) as [base|] eqn:Hb.
  - assert (Hs : In (normalize s) FaceShape) by (apply FaceShape_lookup; eauto).
    destruct (classify_age_group a) as [g|e'] eqn:Hg.
    + destruct (classify_age_group_returns a g Hg) as [Ha _].
      destruct (recommend_glasses_lookups s a Hs Ha) as (b' & g' & m & Hb' & Hg' & _ & Hm).
      rewrite (recommend_glasses_ok s a b' g' m Hb' Hg' Hm) in H. discriminate H.
    + unfold recommend_glasses in H.
      rewrite (recommend_glasses_in_bad_age _ _ _ _ s a base e' Hb Hg) in H.
      injection H as <-.
      destruct (classify_age_group_raises a e' Hg) as [_ Hi].
      destruct Hi as [Hi|Hi]; rewrite Hi; eexists;
        (split; [reflexivity|]); right; [left | right]; reflexivity.
  - assert (Hs : ~ In (normalize s) FaceShape)
      by (rewrite FaceShape_lookup; intros [base Hbase]; congruence).
    rewrite (recommend_glasses_unknown s a Hs) in H. injection H as <-.
    eexists. split; [reflexivity|]. left; reflexivity.
Qed.

(** X14. When the parser yields a namespace whose face shape normalises to
    one of the seven keys and whose age lies in [0,150], [main] returns
    normally after writing the summary of the recommendation and a line
    break to standard output, and writes nothing to standard error. *)
Theorem X14_main_prints_summary
  (Argv : Type) (parse_args : Argv -> Streams -> (Namespace + Z) * Streams)
  (argv : Argv) (w w1 : Streams) (args : Namespace) :
  parse_args argv w = (inl args, w1) ->
  In (normalize (ns_face_shape args)) FaceShape ->
  0 <= ns_age args <= 150 ->
  exists r,
    recommend_glasses (ns_face_shape args) (ns_age args) = Return r
    /\ main Argv parse_args argv w
       = (Returned,
          {| stdout := stdout w1 ++ summary r ++ String LF "";
             stderr := stderr w1 |}).
Proof.
  intros Hp Hs Ha.
  destruct (recommend_glasses_lookups _ _ Hs Ha) as (base & g & m & Hb & Hg & _ & Hm).
  pose proof (recommend_glasses_ok _ _ base g m Hb Hg Hm) as Hok.
  eexists. split; [exact Hok|].
  unfold main. rewrite Hp, Hok. reflexivity.
Qed.

Lemma X14_witness :
  exists r,
    recommend_glasses " Oval" 8 = Return r
    /\ main unit (fun _ w => (inl {| ns_face_shape := " Oval"; ns_age := 8 |}, w))
         tt {| stdout := ""; stderr := "" |}
       = (Returned, {| stdout := summary r ++ String LF ""; stderr := "" |}).
Proof.
  apply (X14_main_prints_summary unit
           (fun _ w => (inl {| ns_face_shape := " Oval"; ns_age := 8 |}, w))
           tt {| stdout := ""; stderr := "" |} {| stdout := ""; stderr := "" |}
           {| ns_face_shape := " Oval"; ns_age := 8 |});
    [reflexivity | vm_compute; tauto | cbn; lia].
Defined.

(** X15. When the parser yields a namespace whose face shape is unknown or
    whose age lies outside [0,150], [main] writes "Error: ", the message
    of the engine's [ValueError] and a line break to standard error,
    nothing to standard output, and exits with status 1. *)
Theorem X15_main_reports_value_error
  (Argv : Type) (parse_args : Argv -> Streams -> (Namespace + Z) * Streams)
  (argv : Argv) (w w1 : Streams) (args : Namespace) :
  parse_args argv w = (inl args, w1) ->
  ~ (In (normalize (ns_face_shape args)) FaceShape /\ 0 <= ns_age args <= 150) ->
  exists msg,
    recommend_glasses (ns_face_shape args) (ns_age args) = Raise (ValueError msg)
    /\ (UnknownFaceShape (normalize (ns_face_shape args)) FaceShape (ValueError msg)
        \/ InvalidAge (ns_age args) (ValueError msg))
    /\ main Argv parse_args argv w
       = (SystemExit 1,
          {| stdout := stdout w1;
             stderr := stderr w1 ++ ("Error: " ++ msg) ++ String LF "" |}).
Proof.
  intros Hp Hbad.
  destruct (recommend_glasses (ns_face_shape args) (ns_age args)) as [r|e] eqn:Hr.
  - elim Hbad. exact (recommend_glasses_return_inv _ _ r Hr).
  - destruct (recommend_glasses_raise_inv _ _ e Hr) as (msg & -> & Hkind).
    exists msg. split; [reflexivity|]. split; [exact Hkind|].
    unfold main. rewrite Hp, Hr. reflexivity.
Qed.

Lemma X15_witness :
  main unit (fun _ w => (inl {| ns_face_shape := "oval"; ns_age := -5 |}, w))
    tt {| stdout := ""; stderr := "" |}
  = (SystemExit 1,
     {| stdout := "";
        stderr := "Error: Age must be non-negative, got -5" ++ String LF "" |}).
Proof.
  destruct (X15_main_reports_value_error unit
              (fun _ w => (inl {| ns_face_shape := "oval"; ns_age := -5 |}, w))
              tt {| stdout := ""; stderr := "" |} {| stdout := ""; stderr := "" |}
              {| ns_face_shape := "oval"; ns_age := -5 |} eq_refl)
    as (msg & Hcall & _ & Hmain).
  - cbn. lia.
  - rewrite Hmain. vm_compute in Hcall. injection Hcall as <-. reflexivity.
Defined.

(** X16. Whatever the parser does, no exception escapes [main]; when the
    parser exits, [main] ends with the parser's status and writes nothing
    of its own; a call that returns has left standard error as the parser
    left it, and a call that exits has left standard output as the parser
    left it, with status 1 unless the status is the parser's. *)
Theorem X16_main_endings
  (Argv : Type) (parse_args : Argv -> Streams -> (Namespace + Z) * Streams)
  (argv : Argv) (w : Streams) :
  (forall e, fst (main Argv parse_args argv w) <> Uncaught e)
  /\ (forall status w1,
        parse_args argv w = (inr status, w1) ->
        main Argv parse_args argv w = (SystemExit status, w1))
  /\ (fst (main Argv parse_args argv w) = Returned ->
        stderr (snd (main Argv parse_args argv w))
        = stderr (snd (parse_args argv w)))
  /\ (forall status,
        fst (main Argv parse_args argv w) = SystemExit status ->
        stdout (snd (main Argv parse_args argv w))
        = stdout (snd (parse_args argv w))
        /\ (status = 1 \/ fst (parse_args argv w) = inr status)).
Proof.
  unfold main.
  destruct (parse_args argv w) as [[args|st] w1] eqn:Hp; cbn [fst snd].
  - destruct (recommend_glasses (ns_face_shape args) (ns_age args)) as [r|e] eqn:Hr.
    + cbn [fst snd print_stdout stderr]. repeat split; try discriminate.
    + destruct (recommend_glasses_raise_inv _ _ e Hr) as (msg & -> & _).
      cbn [fst snd print_stderr stdout].
      repeat split; try discriminate.
      left. congruence.
  - repeat split; try discriminate; try congruence.
    right. congruence.
Qed.

Lemma X16_witness :
  main unit (fun _ w => (inr 2, print_stderr "usage: app.py" w))
    tt {| stdout := ""; stderr := "" |}
  = (SystemExit 2, {| stdout := ""; stderr := "usage: app.py" ++ String LF "" |}).
Proof.
  apply (proj1 (proj2 (X16_main_endings unit
           (fun _ w => (inr 2, print_stderr "usage: app.py" w))
           tt {| stdout := ""; stderr := "" |}))).
  reflexivity.
Defined.

(* ------------------------------------------------------------------ *)
(** ** Padding and case of the face-shape input *)

Lemma lstrip_all_space (s : string) : all_space s = true -> lstrip s = "".
Proof.
  induction s as [|c s IH]; cbn [all_space lstrip]; [reflexivity|].
  destruct (isspace c); [exact IH | discriminate].
Qed.

Lemma rstrip_all_space (s : string) : all_space s = true -> rstrip s = "".
Proof.
  induction s as [|c s IH]; cbn [all_space rstrip]; [reflexivity|].
  destruct (isspace c); [|discriminate].
  intros H. now rewrite (IH H).
Qed.

Lemma lstrip_padding (pre s : string) :
  all_space pre = true -> lstrip (pre ++ s) = lstrip s.
Proof.
  induction pre as [|c pre IH]; cbn [all_space append lstrip]; [reflexivity|].
  destruct (isspace c); [exact IH | discriminate].
Qed.

Lemma rstrip_padding (s post : string) :
  all_space post = true -> rstrip (s ++ post) = rstrip s.
Proof.
  intros H. induction s as [|c s IH]; cbn [append rstrip].
  - now apply rstrip_all_space.
  - now rewrite IH.
Qed.

Lemma lstrip_append (s post : string) :
  lstrip (s ++ post) = if all_space s then lstrip post else lstrip s ++ post.
Proof.
  induction s as [|c s IH]; cbn [append lstrip all_space]; [reflexivity|].
  destruct (isspace c); [exact IH | reflexivity].
Qed.

Lemma strip_padding (pre s post : string) :
  all_space pre = true -> all_space post = true ->
  strip (pre ++ s ++ post) = strip s.
Proof.
  intros Hpre Hpost. unfold strip.
  rewrite (lstrip_padding pre _ Hpre), lstrip_append.
  destruct (all_space s) eqn:Hs.
  - now rewrite (lstrip_all_space post Hpost), (lstrip_all_space s Hs).
  - now apply rstrip_padding.
Qed.

Lemma lower_append (s t : string) : lower (s ++ t) = lower s ++ lower t.
Proof. induction s as [|c s IH]; cbn [append lower]; [reflexivity | now rewrite IH]. Qed.

(** X17. White space around the face shape and the case of its letters
    never change the outcome: two inputs that are equal up to case, one of
    them padded on either side with any amount of white space, give the
    same result or the same error at every age. *)
Theorem X17_padding_and_case_ignored (pre s1 s2 post : string) (a : Z) :
  all_space pre = true -> all_space post = true -> lower s1 = lower s2 ->
  recommend_glasses (pre ++ s1 ++ post) a = recommend_glasses s2 a.
Proof.
  intros Hpre Hpost Hcase.
  rewrite <- (recommend_glasses_normalize (pre ++ s1 ++ post)),
    <- (recommend_glasses_normalize s2).
  unfold normalize.
  now rewrite (strip_padding pre s1 post Hpre Hpost), <- !strip_lower, Hcase.
Qed.

Lemma X17_witness :
  recommend_glasses (String TAB " " ++ "SQuare" ++ String LF (String CR "")) 10
  = recommend_glasses "square" 10.
Proof.
  apply (X17_padding_and_case_ignored (String TAB " ") "SQuare" "square"
           (String LF (String CR "")) 10); reflexivity.
Defined.
